(** * frames.py: periodic capture of frames from a network video stream

    A verification development for [src/frames.py].  The script opens a
    video stream, and in an endless loop reads a frame, stores it under a
    name made from the local time, and sleeps.  It stops when a read fails
    or when the user presses Ctrl+C.

    The script is a straight sequence of calls into OpenCV, [os], [time] and
    [datetime].  It is embedded as a deterministic machine whose program
    counter ranges over the statements of the script, and whose steps consult
    an environment for whatever the outside world decides: whether the stream
    opens, what each [cap.read()] returns, what each [datetime.now()]
    returns, and when Ctrl+C is pressed.

    What the embedding fixes:
    - The imports of lines 1 to 4 always succeed; the machine starts at
      line 7.
    - [exit()] raises [SystemExit(None)], which ends the process with
      status 0.
    - A [KeyboardInterrupt] is raised between statements: a signal that
      arrives while a call into C is running ([cap.read], [cv2.imwrite],
      [print]) is raised when the call has returned, so no such call is
      ever left half done.  [time.sleep] alone is cut short.
    - The clock is an input like any other: nothing ties the readings of
      [datetime.now()], which are local time, to the time slept.
    - The file system has directories and files.  A write fails, and
      [cv2.imwrite] then returns [False], when the directory of the file
      is missing or when a directory sits in the place of the file.
      Permissions, a full disk and what other processes do to the disk
      during a run are left out. *)

From Stdlib Require Import ZArith Lia Ascii String List Sorted.
From stdpp Require Import base option list strings gmap fin_maps.

Local Open Scope Z_scope.

(** ** Local time, as [datetime.now()] returns it *)

Module DateTime.

(** A naive [datetime] object: the fields of the local wall clock. *)
Record datetime := mk_datetime {
  year : Z; month : Z; day : Z;
  hour : Z; minute : Z; second : Z; microsecond : Z
}.

Definition is_leap (y : Z) : bool :=
  (y mod 4 =? 0) && (negb (y mod 100 =? 0) || (y mod 400 =? 0)).

Definition DAYS_IN_MONTH : list Z :=
  [ -1; 31; 28; 31; 30; 31; 30; 31; 31; 30; 31; 30; 31 ].

Definition DAYS_BEFORE_MONTH : list Z :=
  [ -1; 0; 31; 59; 90; 120; 151; 181; 212; 243; 273; 304; 334 ].

Definition days_in_month (y m : Z) : Z :=
  if (m =? 2) && is_leap y then 29
  else nth (Z.to_nat m) DAYS_IN_MONTH 0.

Definition days_before_year (y : Z) : Z :=
  let y' := y - 1 in y' * 365 + y' / 4 - y' / 100 + y' / 400.

Definition days_before_month (y m : Z) : Z :=
  nth (Z.to_nat m) DAYS_BEFORE_MONTH 0
  + (if (2 <? m) && is_leap y then 1 else 0).

(** Proleptic Gregorian ordinal of a date; 0001-01-01 is day 1. *)
Definition ymd2ord (y m d : Z) : Z :=
  days_before_year y + days_before_month y m + d.

(** The class invariant of [datetime]: every field is in its range. *)
Definition valid (t : datetime) : bool :=
  (1 <=? year t) && (year t <=? 9999)
  && (1 <=? month t) && (month t <=? 12)
  && (1 <=? day t) && (day t <=? days_in_month (year t) (month t))
  && (0 <=? hour t) && (hour t <? 24)
  && (0 <=? minute t) && (minute t <? 60)
  && (0 <=? second t) && (second t <? 60)
  && (0 <=? microsecond t) && (microsecond t <? 1000000).

(** Whole seconds, and microseconds, since the start of day 0.  The
    difference of two naive datetimes ([t2 - t1], a [timedelta]) is the
    difference of these counts. *)
Definition to_seconds (t : datetime) : Z :=
  ymd2ord (year t) (month t) (day t) * 86400
  + hour t * 3600 + minute t * 60 + second t.

Definition to_micros (t : datetime) : Z :=
  to_seconds t * 1000000 + microsecond t.

(** The fields a second-resolution stamp keeps. *)
Definition stamp : Type := (Z * Z * Z * Z * Z * Z)%type.

Definition stamp_of (t : datetime) : stamp :=
  (year t, month t, day t, hour t, minute t, second t).

Definition stamp_seconds (s : stamp) : Z :=
  let '(y, mo, d, h, mi, se) := s in
  ymd2ord y mo d * 86400 + h * 3600 + mi * 60 + se.

(** *** Decimal fields *)

Definition digit (d : Z) : ascii := ascii_of_N (48 + Z.to_N d).

Definition is_digit (c : ascii) : bool :=
  ((48 <=? N_of_ascii c) && (N_of_ascii c <=? 57))%N.

Definition digit_val (c : ascii) : Z := Z.of_N (N_of_ascii c) - 48.

(** [pad w n]: the [w] low decimal digits of [n], most significant first;
    for [0 <= n < 10^w] this is C's ["%0wd"]. *)
Fixpoint pad (w : nat) (n : Z) : string :=
  match w with
  | O => EmptyString
  | S w' => String (digit ((n / 10 ^ Z.of_nat w') mod 10)) (pad w' n)
  end.

(** One conversion of a format. *)
Definition directive (c : ascii) (t : datetime) : string :=
  match c with
  | "Y"%char => pad 4 (year t)
  | "m"%char => pad 2 (month t)
  | "d"%char => pad 2 (day t)
  | "H"%char => pad 2 (hour t)
  | "M"%char => pad 2 (minute t)
  | "S"%char => pad 2 (second t)
  | "%"%char => String "%" EmptyString
  | _ => String "%" (String c EmptyString)
  end.

(** [t.strftime(fmt)] for the conversions above; other characters are
    copied. *)
Fixpoint strftime (fmt : string) (t : datetime) : string :=
  match fmt with
  | EmptyString => EmptyString
  | String c rest =>
      match c, rest with
      | "%"%char, String d rest' => directive d t +:+ strftime rest' t
      | _, _ => String c (strftime rest t)
      end
  end.

(** Reading a stamp back: exactly [w] decimal digits. *)
Fixpoint take_digits (w : nat) (acc : Z) (s : string) : option (Z * string) :=
  match w with
  | O => Some (acc, s)
  | S w' =>
      match s with
      | String c r =>
          if is_digit c then take_digits w' (10 * acc + digit_val c) r
          else None
      | EmptyString => None
      end
  end.

Definition take_char (c : ascii) (s : string) : option string :=
  match s with
  | String c' r => if Ascii.eqb c c' then Some r else None
  | EmptyString => None
  end.

(** The reader of ["%Y%m%d_%H%M%S"] followed by [rest]. *)
Definition parse_stamp (s : string) : option (stamp * string) :=
  '(y, s) ← take_digits 4 0 s;
  '(mo, s) ← take_digits 2 0 s;
  '(d, s) ← take_digits 2 0 s;
  s ← take_char "_" s;
  '(h, s) ← take_digits 2 0 s;
  '(mi, s) ← take_digits 2 0 s;
  '(se, s) ← take_digits 2 0 s;
  Some ((y, mo, d, h, mi, se), s).

End DateTime.

Import DateTime.

(** ** Path names ([os.path] on POSIX) *)

Module Path.

Definition sep : ascii := "/"%char.

Definition starts_with_sep (s : string) : bool :=
  match s with
  | String c _ => Ascii.eqb c sep
  | EmptyString => false
  end.

Fixpoint ends_with_sep (s : string) : bool :=
  match s with
  | EmptyString => false
  | String c EmptyString => Ascii.eqb c sep
  | String _ r => ends_with_sep r
  end.

Definition is_empty (s : string) : bool :=
  match s with EmptyString => true | _ => false end.

(** [c in s] *)
Fixpoint mem_char (c : ascii) (s : string) : bool :=
  match s with
  | EmptyString => false
  | String x r => Ascii.eqb x c || mem_char c r
  end.

(** [os.path.join(a, b)] *)
Definition join (a b : string) : string :=
  if starts_with_sep b then b
  else if is_empty a || ends_with_sep a then a +:+ b
  else a +:+ String sep b.

(** [s.split(c)] *)
Fixpoint split_on (c : ascii) (s : string) : list string :=
  match s with
  | EmptyString => [EmptyString]
  | String x r =>
      if Ascii.eqb x c then EmptyString :: split_on c r
      else match split_on c r with
           | h :: t => String x h :: t
           | [] => [String x EmptyString]
           end
  end.

Definition is_name (s : string) : bool :=
  negb (is_empty s) && negb (String.eqb s ".").

(** The names a path walks through, from the working directory, or from
    the root (a leading ["/"] component) for an absolute path. *)
Definition components (p : string) : list string :=
  (if starts_with_sep p then [String sep EmptyString] else [])
  ++ List.filter is_name (split_on sep p).

(** The part of a file name after its last dot, if it has a dot. *)
Definition extension (p : string) : option string :=
  match rev (split_on "." p) with
  | e :: _ :: _ => Some e
  | _ => None
  end.

End Path.

(** ** Frames, image files and the file system *)

(** A decoded frame: [rows] x [cols] pixels of three channels. *)
Record Frame := mk_frame { rows : nat; cols : nat; pixels : list N }.

Inductive ImageFormat := JPEG | PNG | BMP.

Inductive content :=
| Image (fmt : ImageFormat) (img : Frame)
| Blob (bytes : list N).

Module FS.

(** What exists, by path components: the directories, and the files with
    what they hold.  Faults of the medium (permissions, a full disk) are
    not modelled. *)
Record t := mk {
  dirs : gset (list string);
  files : gmap (list string) content
}.

(** The working directory [[]] and the root always exist. *)
Definition is_dir (fs : t) (p : list string) : bool :=
  bool_decide (p = []) || bool_decide (p = ["/"%string])
  || bool_decide (p ∈ dirs fs).

Definition add_dir (p : list string) (fs : t) : t :=
  mk ({[ p ]} ∪ dirs fs) (files fs).

Definition put_file (p : list string) (c : content) (fs : t) : t :=
  mk (dirs fs) (<[ p := c ]> (files fs)).

(** Create the directories [done ++ [c1]], [done ++ [c1; c2]], ... that
    are missing; [None] when one of them is a file. *)
Fixpoint mkdir_p (done todo : list string) (fs : t) : option t :=
  match todo with
  | [] => Some fs
  | c :: todo' =>
      let p := done ++ [c] in
      if is_dir fs p then mkdir_p p todo' fs
      else match files fs !! p with
           | Some _ => None
           | None => mkdir_p p todo' (add_dir p fs)
           end
  end.

Inductive makedirs_result :=
| Made (fs' : t)
| FileExistsError.

(** [os.makedirs(name, exist_ok=...)] *)
Definition makedirs (name : string) (exist_ok : bool) (fs : t)
  : makedirs_result :=
  let p := Path.components name in
  if is_dir fs p then (if exist_ok then Made fs else FileExistsError)
  else match mkdir_p [] p fs with
       | Some fs' => Made fs'
       | None => FileExistsError
       end.

End FS.

(** ** OpenCV *)

Module cv2.

Definition encoder_of (ext : string) : option ImageFormat :=
  if String.eqb ext "jpg" || String.eqb ext "jpeg" || String.eqb ext "jpe"
  then Some JPEG
  else if String.eqb ext "png" then Some PNG
  else if String.eqb ext "bmp" then Some BMP
  else None.

Inductive imwrite_result :=
| Written (fs' : FS.t)      (* returns True *)
| NotWritten                (* returns False *)
| CvError.                  (* raises cv2.error *)

(** [cv2.imwrite(path, img)]: the encoder is chosen by the extension;
    the file is created or replaced when its directory exists and the
    path is not one of a directory; otherwise the file cannot be opened,
    nothing is written and the call returns [False]. *)
Definition imwrite (path : string) (img : option Frame) (fs : FS.t)
  : imwrite_result :=
  match img, Path.extension path ≫= encoder_of with
  | Some f, Some fmt =>
      let p := Path.components path in
      match rev p with
      | _ :: parent =>
          if FS.is_dir fs (rev parent) && negb (FS.is_dir fs p)
          then Written (FS.put_file p (Image fmt f) fs)
          else NotWritten
      | [] => NotWritten
      end
  | _, _ => CvError
  end.

End cv2.

(** ** The script as a machine *)

(** Exceptions that can leave the script. *)
Inductive Exn := KeyboardInterrupt | OSError | cv2_error.

(** How the interpreter stops. *)
Inductive Outcome :=
| Finished                      (* ran past the last statement *)
| SystemExit (code : option Z)  (* [exit(code)] *)
| Uncaught (e : Exn).           (* traceback *)

(** The status the process exits with: 0 after the last statement and after
    [SystemExit(None)], the code of [SystemExit(code)], 130 after an
    uncaught [KeyboardInterrupt] and 1 after any other traceback. *)
Definition exit_status (o : Outcome) : Z :=
  match o with
  | Finished => 0
  | SystemExit None => 0
  | SystemExit (Some c) => c
  | Uncaught KeyboardInterrupt => 130
  | Uncaught _ => 1
  end.

(** The statements of [frames.py], by line. *)
Inductive PC :=
| L07 | L10 | L12 | L13 | L14 | L17 | L18 | L20 | L22
| L24 | L25 | L26 | L27 | L30 | L31 | L32 | L33 | L36
| L39 | L41 | L42
| Halt (o : Outcome).

(** Lines 23 to 36 are the body of the [try] of line 22. *)
Definition in_try (l : PC) : bool :=
  match l with
  | L24 | L25 | L26 | L27 | L30 | L31 | L32 | L33 | L36 => true
  | _ => false
  end.

(** What the script does to the outside world. *)
Inductive Event :=
| VideoCapture (url : string) (opened : bool)
| Printed (line : string)
| Exit
| Makedirs (dir : string)
| Read (r : option Frame)
| Now (t : datetime)
| Imwrite (path : string) (img : option Frame) (written : bool)
| Sleep (secs : Z)
| Sigint (at_line : PC)
| Release
| DestroyAllWindows.

(** What the outside world decides. *)
Record Env := mk_env {
  stream_opens : bool;                (* does [cv2.VideoCapture(url)] open *)
  read_result : nat -> option Frame;  (* the i-th [cap.read()], from 0 *)
  now : nat -> datetime;              (* the i-th [datetime.now()], from 0 *)
  sigint : nat -> bool;               (* Ctrl+C arrives at step i *)
  fs0 : FS.t                          (* the files at launch *)
}.

(** The script's variables, the file system, and the events so far
    (newest first). *)
Record State := mk_state {
  pc : PC;
  stream_url : string;
  cap : bool;                         (* [cap.isOpened()] *)
  save_dir : string;
  ret : bool;
  frame : option Frame;
  filename : string;
  filepath : string;
  fs : FS.t;
  log : list Event
}.

Definition trace (s : State) : list Event := rev (log s).

Definition goto (l : PC) (s : State) : State :=
  mk_state l (stream_url s) (cap s) (save_dir s) (ret s) (frame s)
           (filename s) (filepath s) (fs s) (log s).

Definition emit (e : Event) (s : State) : State :=
  mk_state (pc s) (stream_url s) (cap s) (save_dir s) (ret s) (frame s)
           (filename s) (filepath s) (fs s) (e :: log s).

Definition set_stream_url (v : string) (s : State) : State :=
  mk_state (pc s) v (cap s) (save_dir s) (ret s) (frame s)
           (filename s) (filepath s) (fs s) (log s).

Definition set_cap (v : bool) (s : State) : State :=
  mk_state (pc s) (stream_url s) v (save_dir s) (ret s) (frame s)
           (filename s) (filepath s) (fs s) (log s).

Definition set_save_dir (v : string) (s : State) : State :=
  mk_state (pc s) (stream_url s) (cap s) v (ret s) (frame s)
           (filename s) (filepath s) (fs s) (log s).

Definition set_ret_frame (r : option Frame) (s : State) : State :=
  mk_state (pc s) (stream_url s) (cap s) (save_dir s)
           (match r with Some _ => true | None => false end) r
           (filename s) (filepath s) (fs s) (log s).

Definition set_filename (v : string) (s : State) : State :=
  mk_state (pc s) (stream_url s) (cap s) (save_dir s) (ret s) (frame s)
           v (filepath s) (fs s) (log s).

Definition set_filepath (v : string) (s : State) : State :=
  mk_state (pc s) (stream_url s) (cap s) (save_dir s) (ret s) (frame s)
           (filename s) v (fs s) (log s).

Definition set_fs (v : FS.t) (s : State) : State :=
  mk_state (pc s) (stream_url s) (cap s) (save_dir s) (ret s) (frame s)
           (filename s) (filepath s) v (log s).

(** How many [cap.read()] and [datetime.now()] calls were made. *)
Fixpoint n_reads (l : list Event) : nat :=
  match l with
  | [] => O
  | Read _ :: l' => S (n_reads l')
  | _ :: l' => n_reads l'
  end.

Fixpoint n_nows (l : list Event) : nat :=
  match l with
  | [] => O
  | Now _ :: l' => S (n_nows l')
  | _ :: l' => n_nows l'
  end.

Definition STREAM_URL : string := "http://192.168.137.50:5000/video_feed".
Definition SAVE_DIR : string := "captured_images".
Definition STAMP_FORMAT : string := "%Y%m%d_%H%M%S".

(** The name line 30 makes from a clock reading. *)
Definition stamp_name (t : datetime) : string :=
  strftime STAMP_FORMAT t +:+ ".jpg".

Definition MSG_OPEN_FAILED : string := "Error: Could not open video stream.".
Definition MSG_START : string :=
  "Capturing images every 20 seconds... Press Ctrl+C to stop.".
Definition MSG_READ_FAILED : string := "Failed to grab frame.".
Definition MSG_SAVED (path : string) : string := "Saved: " +:+ path.
Definition MSG_STOPPED : string :=
  String (ascii_of_nat 10) "Stopped by user.".

(** One statement, run to completion. *)
Definition exec (env : Env) (s : State) : State :=
  match pc s with
  | L07 => (* stream_url = "http://..." *)
      goto L10 (set_stream_url STREAM_URL s)
  | L10 => (* cap = cv2.VideoCapture(stream_url) *)
      let ok := stream_opens env in
      goto L12 (emit (VideoCapture (stream_url s) ok) (set_cap ok s))
  | L12 => (* if not cap.isOpened(): *)
      if negb (cap s) then goto L13 s else goto L17 s
  | L13 => (* print("Error: Could not open video stream.") *)
      goto L14 (emit (Printed MSG_OPEN_FAILED) s)
  | L14 => (* exit() *)
      goto (Halt (SystemExit None)) (emit Exit s)
  | L17 => (* save_dir = "captured_images" *)
      goto L18 (set_save_dir SAVE_DIR s)
  | L18 => (* os.makedirs(save_dir, exist_ok=True) *)
      match FS.makedirs (save_dir s) true (fs s) with
      | FS.Made fs' => goto L20 (emit (Makedirs (save_dir s)) (set_fs fs' s))
      | FS.FileExistsError => goto (Halt (Uncaught OSError)) s
      end
  | L20 => (* print("Capturing images every 20 seconds... ") *)
      goto L22 (emit (Printed MSG_START) s)
  | L22 => (* try: *)
      goto L24 s
  | L24 => (* ret, frame = cap.read() *)
      let r := if cap s then read_result env (n_reads (log s)) else None in
      goto L25 (emit (Read r) (set_ret_frame r s))
  | L25 => (* if not ret: *)
      if negb (ret s) then goto L26 s else goto L30 s
  | L26 => (* print("Failed to grab frame.") *)
      goto L27 (emit (Printed MSG_READ_FAILED) s)
  | L27 => (* break *)
      goto L41 s
  | L30 => (* filename = datetime.now().strftime("%Y%m%d_%H%M%S") + ".jpg" *)
      let t := now env (n_nows (log s)) in
      goto L31 (emit (Now t) (set_filename (strftime STAMP_FORMAT t +:+ ".jpg") s))
  | L31 => (* filepath = os.path.join(save_dir, filename) *)
      goto L32 (set_filepath (Path.join (save_dir s) (filename s)) s)
  | L32 => (* cv2.imwrite(filepath, frame) *)
      match cv2.imwrite (filepath s) (frame s) (fs s) with
      | cv2.Written fs' =>
          goto L33 (emit (Imwrite (filepath s) (frame s) true) (set_fs fs' s))
      | cv2.NotWritten =>
          goto L33 (emit (Imwrite (filepath s) (frame s) false) s)
      | cv2.CvError => goto (Halt (Uncaught cv2_error)) s
      end
  | L33 => (* print(f"Saved: {filepath}") *)
      goto L36 (emit (Printed (MSG_SAVED (filepath s))) s)
  | L36 => (* time.sleep(60), then back to [while True] *)
      goto L24 (emit (Sleep 60) s)
  | L39 => (* print("\nStopped by user.") *)
      goto L41 (emit (Printed MSG_STOPPED) s)
  | L41 => (* cap.release() *)
      goto L42 (emit Release (set_cap false s))
  | L42 => (* cv2.destroyAllWindows() *)
      goto (Halt Finished) (emit DestroyAllWindows s)
  | Halt _ => s
  end.

(** A [KeyboardInterrupt] raised when line [l] is next: the statement at
    [l] does not run (a sleep is cut short); inside [try] control goes to
    the handler at line 39, elsewhere the exception leaves the script. *)
Definition interrupt (s : State) : State :=
  let l := pc s in
  goto (if in_try l then L39 else Halt (Uncaught KeyboardInterrupt))
       (emit (Sigint l) s).

(** Step [i] of a run. *)
Definition step (env : Env) (i : nat) (s : State) : State :=
  match pc s with
  | Halt _ => s
  | _ => if sigint env i then interrupt s else exec env s
  end.

Definition init (env : Env) : State :=
  mk_state L07 "" false "" false None "" "" (fs0 env) [].

(** [run_from env i s n]: steps [i], [i+1], ..., [i+n-1] from [s]. *)
Fixpoint run_from (env : Env) (i : nat) (s : State) (n : nat) : State :=
  match n with
  | O => s
  | S n' => run_from env (S i) (step env i s) n'
  end.

(** The state after the first [n] steps. *)
Definition run (env : Env) (n : nat) : State := run_from env O (init env) n.

(** ** Reading a log *)

(** The frames that [cap.read()] delivered. *)
Fixpoint reads_ok (l : list Event) : list Frame :=
  match l with
  | [] => []
  | Read (Some f) :: l' => f :: reads_ok l'
  | _ :: l' => reads_ok l'
  end.

(** The frames that were handed to [cv2.imwrite]. *)
Fixpoint saved_frames (l : list Event) : list Frame :=
  match l with
  | [] => []
  | Imwrite _ (Some f) _ :: l' => f :: saved_frames l'
  | _ :: l' => saved_frames l'
  end.

(** The paths that were handed to [cv2.imwrite]. *)
Fixpoint save_paths (l : list Event) : list string :=
  match l with
  | [] => []
  | Imwrite p _ _ :: l' => p :: save_paths l'
  | _ :: l' => save_paths l'
  end.

(** The paths, by components, of the writes that went through, and the
    set of the files they made or replaced. *)
Fixpoint written_paths (l : list Event) : list (list string) :=
  match l with
  | [] => []
  | Imwrite p _ true :: l' => Path.components p :: written_paths l'
  | _ :: l' => written_paths l'
  end.

Definition files_written (l : list Event) : gset (list string) :=
  list_to_set (written_paths l).

Fixpoint n_release (l : list Event) : nat :=
  match l with
  | [] => O
  | Release :: l' => S (n_release l')
  | _ :: l' => n_release l'
  end.

Fixpoint n_opens (l : list Event) : nat :=
  match l with
  | [] => O
  | VideoCapture _ _ :: l' => S (n_opens l')
  | _ :: l' => n_opens l'
  end.

(** ** What holds along every run *)

(** The path of the [k] newest saves when [k] clock readings were made,
    newest first. *)
Fixpoint paths_upto (env : Env) (k : nat) : list string :=
  match k with
  | O => []
  | S k' => Path.join SAVE_DIR (stamp_name (now env k')) :: paths_upto env k'
  end.

(** Whether a write to [path] goes through in a run: it does unless a
    directory sits at the path.  The script makes no directory after line
    18 and removes none, so this is settled at launch. *)
Definition writes (env : Env) (path : string) : bool :=
  negb (FS.is_dir (fs0 env) (Path.components path)).

(** The shape of a log (newest event first): every sleep lasts 60 seconds,
    every clock reading and every read is the environment's next one, and
    every [imwrite] is handed the frame just read and the name of the
    clock reading just made, and goes through unless a directory is in
    its way. *)
Fixpoint log_ok (env : Env) (l : list Event) : Prop :=
  match l with
  | [] => True
  | e :: l' =>
      match e with
      | Sleep d => d = 60
      | Now t => t = now env (n_nows l')
      | Read r => r = read_result env (n_reads l')
      | Imwrite p o b =>
          exists t f l'',
            l' = Now t :: Read (Some f) :: l''
            /\ p = Path.join SAVE_DIR (stamp_name t) /\ o = Some f
            /\ b = writes env p
      | _ => True
      end /\ log_ok env l'
  end.

(** Whole iterations only: every frame read was saved, under its own
    clock reading. *)
Definition settled (l : list Event) : Prop :=
  reads_ok l = saved_frames l
  /\ n_reads l = length (save_paths l)
  /\ n_nows l = length (save_paths l).

(** Inside the loop the stream is open and unreleased, and the directory
    exists. *)
Definition loop_vars (s : State) : Prop :=
  cap s = true /\ save_dir s = SAVE_DIR
  /\ FS.is_dir (fs s) [SAVE_DIR] = true
  /\ n_release (log s) = O /\ n_opens (log s) = 1%nat.

Definition final_message (m : string) : Prop :=
  m = MSG_READ_FAILED \/ m = MSG_STOPPED.

(** What is known at each line. *)
Definition at_pc (env : Env) (s : State) : Prop :=
  match pc s with
  | L07 => log s = [] /\ fs s = fs0 env
  | L10 => log s = [] /\ fs s = fs0 env /\ stream_url s = STREAM_URL
  | L12 =>
      log s = [VideoCapture STREAM_URL (stream_opens env)]
      /\ fs s = fs0 env /\ cap s = stream_opens env
  | L13 =>
      log s = [VideoCapture STREAM_URL false]
      /\ fs s = fs0 env /\ stream_opens env = false
  | L14 =>
      log s = [Printed MSG_OPEN_FAILED; VideoCapture STREAM_URL false]
      /\ fs s = fs0 env /\ stream_opens env = false
  | Halt (SystemExit c) =>
      c = None
      /\ log s = [Exit; Printed MSG_OPEN_FAILED; VideoCapture STREAM_URL false]
      /\ fs s = fs0 env /\ stream_opens env = false
  | L17 =>
      log s = [VideoCapture STREAM_URL true]
      /\ fs s = fs0 env /\ cap s = true
  | L18 =>
      log s = [VideoCapture STREAM_URL true]
      /\ fs s = fs0 env /\ cap s = true /\ save_dir s = SAVE_DIR
  | L20 =>
      log s = [Makedirs SAVE_DIR; VideoCapture STREAM_URL true]
      /\ loop_vars s
      /\ (fs s = fs0 env
          \/ FS.is_dir (fs0 env) [SAVE_DIR] = false
             /\ fs s = FS.add_dir [SAVE_DIR] (fs0 env))
  | L22 =>
      log s = [Printed MSG_START; Makedirs SAVE_DIR;
               VideoCapture STREAM_URL true]
      /\ loop_vars s
  | L24 =>
      loop_vars s /\ settled (log s)
      /\ exists e l', log s = e :: l' /\ (e = Printed MSG_START \/ e = Sleep 60)
  | L25 =>
      loop_vars s
      /\ exists l', log s = Read (frame s) :: l'
         /\ ret s = match frame s with Some _ => true | None => false end
         /\ settled l'
  | L26 =>
      loop_vars s
      /\ exists l', log s = Read None :: l' /\ settled l'
  | L27 =>
      loop_vars s
      /\ exists l', log s = Printed MSG_READ_FAILED :: Read None :: l'
         /\ settled l'
  | L30 =>
      loop_vars s
      /\ exists f l', frame s = Some f /\ log s = Read (Some f) :: l'
         /\ settled l'
  | L31 =>
      loop_vars s
      /\ exists t f l', frame s = Some f /\ filename s = stamp_name t
         /\ log s = Now t :: Read (Some f) :: l'
         /\ settled l'
  | L32 =>
      loop_vars s
      /\ exists t f l', frame s = Some f /\ filename s = stamp_name t
         /\ filepath s = Path.join SAVE_DIR (stamp_name t)
         /\ log s = Now t :: Read (Some f) :: l'
         /\ settled l'
  | L33 =>
      loop_vars s
      /\ exists t f l', frame s = Some f /\ filename s = stamp_name t
         /\ filepath s = Path.join SAVE_DIR (stamp_name t)
         /\ log s = Imwrite (filepath s) (Some f) (writes env (filepath s))
                    :: Now t :: Read (Some f) :: l'
         /\ (writes env (filepath s) = true ->
             FS.files (fs s) !! [SAVE_DIR; stamp_name t]
             = Some (Image JPEG f))
         /\ settled l'
  | L36 =>
      loop_vars s
      /\ exists t f l', frame s = Some f /\ filename s = stamp_name t
         /\ filepath s = Path.join SAVE_DIR (stamp_name t)
         /\ log s = Printed (MSG_SAVED (filepath s))
                    :: Imwrite (filepath s) (Some f) (writes env (filepath s))
                    :: Now t :: Read (Some f) :: l'
         /\ (writes env (filepath s) = true ->
             FS.files (fs s) !! [SAVE_DIR; stamp_name t]
             = Some (Image JPEG f))
         /\ settled l'
  | L39 =>
      cap s = true
      /\ exists l l', log s = Sigint l :: l' /\ in_try l = true
         /\ n_release l' = O
  | L41 =>
      cap s = true
      /\ exists m l', log s = Printed m :: l' /\ final_message m
         /\ n_release l' = O
  | L42 =>
      cap s = false
      /\ exists m l', log s = Release :: Printed m :: l' /\ final_message m
         /\ n_release l' = O
  | Halt Finished =>
      cap s = false
      /\ exists m l', log s = DestroyAllWindows :: Release :: Printed m :: l'
         /\ final_message m /\ n_release l' = O
  | Halt (Uncaught e) =>
      match e with
      | KeyboardInterrupt =>
          exists l l', log s = Sigint l :: l' /\ in_try l = false
      | OSError =>
          log s = [VideoCapture STREAM_URL true] /\ fs s = fs0 env
          /\ FS.is_dir (fs0 env) [SAVE_DIR] = false
          /\ exists c, FS.files (fs0 env) !! [SAVE_DIR] = Some c
      | cv2_error => False
      end
  end.

(** The only directory made is the one of line 18, and every file is one
    that was there at launch or a whole image that [cv2.imwrite] wrote. *)
Definition fs_ok (env : Env) (fs : FS.t) (l : list Event) : Prop :=
  (FS.dirs fs = FS.dirs (fs0 env)
   \/ FS.dirs fs = {[ [SAVE_DIR] ]} ∪ FS.dirs (fs0 env))
  /\ forall p : list string,
       FS.files fs !! p = FS.files (fs0 env) !! p
       \/ exists path f,
            In (Imwrite path (Some f) true) l
            /\ p = Path.components path
            /\ FS.files fs !! p = Some (Image JPEG f).

(** A file that was written stays an image file. *)
Definition saved_ok (fs : FS.t) (l : list Event) : Prop :=
  forall path o,
    In (Imwrite path o true) l ->
    exists f, FS.files fs !! Path.components path = Some (Image JPEG f).

Record Inv (env : Env) (s : State) : Prop := mk_inv {
  inv_pc : at_pc env s;
  inv_log : log_ok env (log s);
  inv_pending :
    reads_ok (log s) = saved_frames (log s)
    \/ exists f, reads_ok (log s) = f :: saved_frames (log s);
  inv_release : (n_release (log s) <= 1)%nat;
  inv_opens : (n_opens (log s) <= 1)%nat;
  inv_paths : save_paths (log s) = paths_upto env (length (save_paths (log s)));
  inv_fs : fs_ok env (fs s) (log s);
  inv_saved : saved_ok (fs s) (log s)
}.

(** ** Vocabulary of the properties *)

(** The end of a run that went through lines 41 and 42. *)
Definition cleaned_up (s : State) : Prop :=
  pc s = Halt Finished /\ cap s = false
  /\ n_release (trace s) = 1%nat
  /\ exists tr, trace s = tr ++ [Release; DestroyAllWindows].


(** Events of a launch that never opened the stream. *)
Definition startup_event (e : Event) : Prop :=
  match e with
  | VideoCapture _ _ | Printed _ | Exit | Sigint _ => True
  | _ => False
  end.

(** Where a launch can be when the stream did not open. *)
Definition closed_line (s : State) : Prop :=
  match pc s with
  | L07 | L10 | L13 | L14 => True
  | L12 => cap s = false
  | Halt (SystemExit None) | Halt (Uncaught KeyboardInterrupt) => True
  | _ => False
  end.

(** [s] without the prefix [pre], when it starts with it. *)
Fixpoint strip_prefix (pre s : string) : option string :=
  match pre, s with
  | EmptyString, _ => Some s
  | String a pre', String b s' =>
      if Ascii.eqb a b then strip_prefix pre' s' else None
  | _, _ => None
  end.


(** The second a saved path is named after. *)
Definition path_stamp (path : string) : option stamp :=
  name ← strip_prefix (SAVE_DIR +:+ "/") path;
  '(st, rest) ← parse_stamp name;
  if String.eqb rest ".jpg" then Some st else None.

(** The seconds the saved files of a trace are named after, in the order
    of saving. *)
Definition saved_seconds (tr : list Event) : list Z :=
  omap (fun p => stamp_seconds <$> path_stamp p) (save_paths tr).

(** What holds at every step when the stream did not open. *)
Definition closed_inv (env : Env) (s : State) : Prop :=
  closed_line s /\ fs s = fs0 env /\ Forall startup_event (log s).

(** The path of the file named after the [i]-th clock reading. *)
Definition path_of (env : Env) (i : nat) : string :=
  Path.join SAVE_DIR (stamp_name (now env i)).

(** ** Environments used as examples *)

Definition a_frame : Frame := mk_frame 1 1 [10%N; 20%N; 30%N].

Definition empty_fs : FS.t := FS.mk ∅ ∅.

(** Every minute from 2026-11-03 10:00:15. *)
Definition minute_clock (i : nat) : datetime :=
  mk_datetime 2026 11 3 10 (Z.of_nat i mod 60) 15 250000.

(** The stream does not open. *)
Definition env_closed : Env :=
  mk_env false (fun _ => None) minute_clock (fun _ => false) empty_fs.

(** Three frames, then the stream fails. *)
Definition env_three_frames : Env :=
  mk_env true (fun i => if (i <? 3)%nat then Some a_frame else None)
         minute_clock (fun _ => false) empty_fs.

(** Frames for ever, and Ctrl+C during the first sleep (step 13). *)
Definition env_cancel_in_sleep : Env :=
  mk_env true (fun _ => Some a_frame) minute_clock
         (fun i => (i =? 13)%nat) empty_fs.


(** The night summer time ends: the local clock shows 02:59:30 and, a
    minute later, 02:00:30. *)
Definition dst_clock (i : nat) : datetime :=
  match i with
  | O => mk_datetime 2026 10 25 2 59 30 0
  | _ => mk_datetime 2026 10 25 2 0 30 0
  end.

Definition env_dst : Env :=
  mk_env true (fun i => if (i <? 2)%nat then Some a_frame else None)
         dst_clock (fun _ => false) empty_fs.

(** ** Vocabulary of the further properties *)

(** What is known of a run that has stopped, by the way it stopped. *)
Definition stopped_as (env : Env) (s : State) (o : Outcome) : Prop :=
  match o with
  | Finished =>
      stream_opens env = true /\ cap s = false
      /\ exists tr m,
           trace s = tr ++ [Printed m; Release; DestroyAllWindows]
           /\ final_message m /\ n_release tr = O
  | SystemExit c =>
      c = None /\ stream_opens env = false /\ fs s = fs0 env
      /\ trace s = [VideoCapture STREAM_URL false; Printed MSG_OPEN_FAILED; Exit]
  | Uncaught KeyboardInterrupt =>
      exists tr l, trace s = tr ++ [Sigint l] /\ in_try l = false
  | Uncaught OSError =>
      stream_opens env = true /\ fs s = fs0 env
      /\ trace s = [VideoCapture STREAM_URL true]
      /\ FS.is_dir (fs0 env) [SAVE_DIR] = false
      /\ exists c, FS.files (fs0 env) !! [SAVE_DIR] = Some c
  | Uncaught cv2_error => False
  end.

(** The events of the [i]-th iteration when its read delivers a frame;
    the write goes through unless a directory sits at its path. *)
Definition iteration_events (env : Env) (i : nat) : list Event :=
  [ Read (read_result env i); Now (now env i);
    Imwrite (path_of env i) (read_result env i) (writes env (path_of env i));
    Printed (MSG_SAVED (path_of env i)); Sleep 60 ].

(** The events of the launch when the stream opens. *)
Definition launch_events : list Event :=
  [VideoCapture STREAM_URL true; Makedirs SAVE_DIR; Printed MSG_START].

(** The file system after line 18. *)
Definition launch_fs (env : Env) : FS.t :=
  if FS.is_dir (fs0 env) [SAVE_DIR] then fs0 env
  else FS.add_dir [SAVE_DIR] (fs0 env).

(** The file system after the first [k] iterations: each write that goes
    through makes or replaces its file. *)
Fixpoint files_after (env : Env) (k : nat) : FS.t :=
  match k with
  | O => launch_fs env
  | S k' =>
      match read_result env k' with
      | Some f =>
          if writes env (path_of env k')
          then FS.put_file [SAVE_DIR; stamp_name (now env k')] (Image JPEG f)
                           (files_after env k')
          else files_after env k'
      | None => files_after env k'
      end
  end.

(** The line an event comes from: a Ctrl+C is recorded with the line it
    arrived at, every other event comes from one statement, a message from
    the line that prints it. *)
Definition emitted_by (l : PC) (e : Event) : Prop :=
  match e with
  | VideoCapture _ _ => l = L10
  | Printed m =>
      match l with
      | L13 => m = MSG_OPEN_FAILED
      | L20 => m = MSG_START
      | L26 => m = MSG_READ_FAILED
      | L33 => exists p, m = MSG_SAVED p
      | L39 => m = MSG_STOPPED
      | _ => False
      end
  | Exit => l = L14
  | Makedirs _ => l = L18
  | Read _ => l = L24
  | Now _ => l = L30
  | Imwrite _ _ _ => l = L32
  | Sleep _ => l = L36
  | Sigint at_line => l = at_line
  | Release => l = L41
  | DestroyAllWindows => l = L42
  end.

(** Events that use the capture handle. *)
Definition uses_handle (e : Event) : Prop :=
  match e with
  | Read _ | Release => True
  | _ => False
  end.

(** Events that can follow [cap.release()]. *)
Definition after_release (e : Event) : Prop :=
  match e with
  | DestroyAllWindows | Sigint _ => True
  | _ => False
  end.

(** ** Further environments used as examples *)

(** [captured_images] is a regular file at launch. *)
Definition env_dir_is_file : Env :=
  mk_env true (fun _ => Some a_frame) minute_clock (fun _ => false)
         (FS.mk ∅ {[ [SAVE_DIR] := Blob [] ]}).

(** Frames for ever and no Ctrl+C. *)
Definition env_endless : Env :=
  mk_env true (fun _ => Some a_frame) minute_clock (fun _ => false) empty_fs.

(** Ctrl+C right after the stream was opened (step 2). *)
Definition env_cancel_at_launch : Env :=
  mk_env true (fun _ => Some a_frame) minute_clock
         (fun i => (i =? 2)%nat) empty_fs.

(** Two frames within the same second. *)
Definition same_second_clock (i : nat) : datetime :=
  mk_datetime 2026 11 3 10 0 15 (Z.of_nat i mod 1000000).

Definition another_frame : Frame := mk_frame 1 1 [1%N; 2%N; 3%N].

Definition env_same_second : Env :=
  mk_env true (fun i => Some (if (i =? 0)%nat then a_frame else another_frame))
         same_second_clock (fun _ => false) empty_fs.

(** Two frames within the same second, then the stream fails. *)
Definition env_same_second_fails : Env :=
  mk_env true
         (fun i => match i with
                   | O => Some a_frame
                   | 1%nat => Some another_frame
                   | _ => None
                   end)
         same_second_clock (fun _ => false) empty_fs.

(** The night summer time ends, the hour from 02:00 to 03:00 comes twice.
    An iteration takes 60.005 seconds; the 61st reading of the local clock
    falls in the second of the first.  The stream fails after 61 frames. *)
Definition repeated_hour_clock (i : nat) : datetime :=
  mk_datetime 2026 10 25 2 (Z.of_nat i mod 60) 30 (Z.of_nat i * 5000).

Definition env_repeated_hour : Env :=
  mk_env true (fun i => if (i <? 61)%nat then Some a_frame else None)
         repeated_hour_clock (fun _ => false) empty_fs.

(** At launch a directory sits where the first frame is to be saved. *)
Definition env_dir_in_the_way : Env :=
  mk_env true (fun _ => Some a_frame) minute_clock (fun _ => false)
         (FS.mk {[ [SAVE_DIR]; [SAVE_DIR; "20261103_100015.jpg"%string] ]} ∅).

(** * Properties *)

(** ** Examples of the models *)

Example strftime_example :
  strftime "%Y%m%d_%H%M%S" (mk_datetime 2026 10 25 2 59 30 123456)
  = "20261025_025930"%string.
Proof. reflexivity. Qed.

Example parse_stamp_example :
  parse_stamp "20261025_025930.jpg"
  = Some ((2026, 10, 25, 2, 59, 30), ".jpg"%string).
Proof. reflexivity. Qed.

Example components_example :
  Path.components (Path.join "captured_images" "20261025_025930.jpg")
  = ["captured_images"; "20261025_025930.jpg"]%string.
Proof. reflexivity. Qed.

Example extension_example :
  Path.extension "captured_images/20261025_025930.jpg" = Some "jpg"%string.
Proof. reflexivity. Qed.

(** ** Strings, names and paths *)

Section DateTimeFacts.

Lemma N_of_digit d : 0 <= d <= 9 -> N_of_ascii (digit d) = (48 + Z.to_N d)%N.
Proof. intros H. unfold digit. apply N_ascii_embedding. lia. Qed.

Lemma is_digit_digit d : 0 <= d <= 9 -> is_digit (digit d) = true.
Proof.
  intros H. unfold is_digit. rewrite N_of_digit by done.
  apply andb_true_intro; split; [apply N.leb_le | apply N.leb_le]; lia.
Qed.

Lemma digit_val_digit d : 0 <= d <= 9 -> digit_val (digit d) = d.
Proof. intros H. unfold digit_val. rewrite N_of_digit by done. lia. Qed.

Lemma mod10_range n : 0 <= n mod 10 <= 9.
Proof. pose proof (Z.mod_pos_bound n 10). lia. Qed.

Lemma append_cons c (s r : string) : String c s +:+ r = String c (s +:+ r).
Proof. reflexivity. Qed.

Lemma append_nil (r : string) : EmptyString +:+ r = r.
Proof. reflexivity. Qed.

Lemma take_digits_pad w : forall n acc rest,
  take_digits w acc (pad w n +:+ rest)
  = Some (acc * 10 ^ Z.of_nat w + n mod 10 ^ Z.of_nat w, rest).
Proof.
  induction w as [|w IH]; intros n acc rest.
  - cbn [pad take_digits]. rewrite append_nil. f_equal. f_equal.
    change (10 ^ Z.of_nat 0) with 1. rewrite Z.mod_1_r. lia.
  - cbn [pad]. rewrite append_cons. cbn [take_digits].
    rewrite is_digit_digit by apply mod10_range.
    rewrite digit_val_digit by apply mod10_range.
    rewrite IH. f_equal. f_equal.
    rewrite Nat2Z.inj_succ, Z.pow_succ_r by lia.
    set (p := 10 ^ Z.of_nat w).
    assert (0 < p) by (apply Z.pow_pos_nonneg; lia).
    rewrite (Z.mul_comm 10 p), Z.rem_mul_r by lia. lia.
Qed.

Lemma take_digits_pad_small w n rest :
  0 <= n < 10 ^ Z.of_nat w ->
  take_digits w 0 (pad w n +:+ rest) = Some (n, rest).
Proof.
  intros H. rewrite take_digits_pad, Z.mod_small by done. done.
Qed.

Lemma append_assoc (a b c : string) : (a +:+ b) +:+ c = a +:+ (b +:+ c).
Proof.
  induction a as [|x a IH]; [done|].
  rewrite !append_cons. by rewrite IH.
Qed.

Lemma strftime_stamp t :
  strftime STAMP_FORMAT t
  = pad 4 (year t) +:+ pad 2 (month t) +:+ pad 2 (day t)
    +:+ String "_" (pad 2 (hour t) +:+ pad 2 (minute t)
                    +:+ pad 2 (second t) +:+ EmptyString).
Proof. reflexivity. Qed.

Lemma days_in_month_le y m : days_in_month y m <= 31.
Proof.
  unfold days_in_month. destruct (_ && _); [lia|].
  unfold DAYS_IN_MONTH. generalize (Z.to_nat m) as k. intros k.
  do 13 (destruct k as [|k]; [cbn; lia|]). destruct k; cbn; lia.
Qed.

Lemma valid_bounds t :
  valid t = true ->
  1 <= year t <= 9999 /\ 1 <= month t <= 12
  /\ 1 <= day t <= days_in_month (year t) (month t)
  /\ 0 <= hour t < 24 /\ 0 <= minute t < 60 /\ 0 <= second t < 60
  /\ 0 <= microsecond t < 1000000.
Proof.
  unfold valid. rewrite !andb_true_iff, !Z.leb_le, !Z.ltb_lt. lia.
Qed.

Lemma parse_stamp_strftime t rest :
  valid t = true ->
  parse_stamp (strftime STAMP_FORMAT t +:+ rest) = Some (stamp_of t, rest).
Proof.
  intros Hv. apply valid_bounds in Hv.
  pose proof (days_in_month_le (year t) (month t)).
  rewrite strftime_stamp. unfold parse_stamp.
  rewrite !append_assoc.
  rewrite take_digits_pad_small by (cbn; lia). cbn [mbind option_bind].
  rewrite take_digits_pad_small by (cbn; lia). cbn [mbind option_bind].
  rewrite take_digits_pad_small by (cbn; lia). cbn [mbind option_bind].
  rewrite append_cons. cbn [take_char Ascii.eqb Bool.eqb mbind option_bind].
  rewrite !append_assoc.
  rewrite take_digits_pad_small by (cbn; lia). cbn [mbind option_bind].
  rewrite take_digits_pad_small by (cbn; lia). cbn [mbind option_bind].
  rewrite take_digits_pad_small by (cbn; lia). cbn [mbind option_bind].
  rewrite append_nil. reflexivity.
Qed.

(** A stamp has digits and one underscore, nothing else. *)
Lemma mem_char_append c a b :
  Path.mem_char c (a +:+ b) = Path.mem_char c a || Path.mem_char c b.
Proof.
  induction a as [|x a IH]; [done|].
  rewrite append_cons. cbn [Path.mem_char]. rewrite IH. by rewrite orb_assoc.
Qed.

Lemma digit_neq c d : is_digit c = false -> Ascii.eqb (digit ((d) mod 10)) c = false.
Proof.
  intros Hc. apply Ascii.eqb_neq. intros <-.
  rewrite is_digit_digit in Hc by apply mod10_range. done.
Qed.

Lemma mem_char_pad c w n : is_digit c = false -> Path.mem_char c (pad w n) = false.
Proof.
  intros Hc. induction w as [|w IH]; [done|].
  cbn [pad Path.mem_char]. by rewrite digit_neq, IH.
Qed.

Lemma mem_char_stamp c t :
  is_digit c = false -> Ascii.eqb "_" c = false ->
  Path.mem_char c (strftime STAMP_FORMAT t) = false.
Proof.
  intros Hc Hu. rewrite strftime_stamp.
  rewrite !mem_char_append. cbn [Path.mem_char]. rewrite !mem_char_append.
  rewrite !mem_char_pad, Hu by done. done.
Qed.
End DateTimeFacts.

Section PathFacts.

Lemma split_on_none c s : Path.mem_char c s = false -> Path.split_on c s = [s].
Proof.
  induction s as [|x s IH]; [done|].
  cbn [Path.mem_char Path.split_on]. intros [Hx Hs]%orb_false_elim.
  by rewrite Hx, IH.
Qed.

Lemma split_on_app c a b :
  Path.mem_char c a = false ->
  Path.split_on c (a +:+ String c b) = a :: Path.split_on c b.
Proof.
  induction a as [|x a IH].
  - intros _. rewrite append_nil. cbn [Path.split_on].
    by rewrite Ascii.eqb_refl.
  - cbn [Path.mem_char]. intros [Hx Ha]%orb_false_elim.
    rewrite append_cons. cbn [Path.split_on]. by rewrite Hx, IH.
Qed.

Lemma stamp_name_head t :
  exists d r, stamp_name t = String (digit (d mod 10)) r.
Proof. eexists _, _. reflexivity. Qed.

Lemma mem_char_stamp_name c t :
  is_digit c = false -> Ascii.eqb "_" c = false ->
  Path.mem_char c ".jpg" = false ->
  Path.mem_char c (stamp_name t) = false.
Proof.
  intros Hc Hu Hj. unfold stamp_name.
  by rewrite mem_char_append, mem_char_stamp, Hj.
Qed.

Lemma join_stamp t :
  Path.join SAVE_DIR (stamp_name t) = SAVE_DIR +:+ String "/" (stamp_name t).
Proof.
  destruct (stamp_name_head t) as (d & r & ->).
  unfold Path.join. cbn [Path.starts_with_sep].
  unfold Path.sep. by rewrite digit_neq.
Qed.

Lemma is_name_stamp t : Path.is_name (stamp_name t) = true.
Proof.
  destruct (stamp_name_head t) as (d & r & ->).
  unfold Path.is_name. cbn [Path.is_empty negb andb String.eqb].
  by rewrite digit_neq.
Qed.

Lemma components_stamp t :
  Path.components (Path.join SAVE_DIR (stamp_name t))
  = [SAVE_DIR; stamp_name t].
Proof.
  rewrite join_stamp. unfold Path.components.
  replace (Path.starts_with_sep _) with false by reflexivity.
  unfold Path.sep. rewrite split_on_app by reflexivity.
  rewrite split_on_none by (by apply mem_char_stamp_name).
  cbn [List.filter app]. rewrite is_name_stamp. reflexivity.
Qed.

Lemma extension_stamp t :
  Path.extension (Path.join SAVE_DIR (stamp_name t)) = Some "jpg"%string.
Proof.
  rewrite join_stamp. unfold Path.extension, stamp_name.
  change (SAVE_DIR +:+ String "/" (strftime STAMP_FORMAT t +:+ ".jpg"))
    with (SAVE_DIR +:+ (String "/" (strftime STAMP_FORMAT t) +:+ String "." "jpg")).
  rewrite <- append_assoc.
  rewrite split_on_app.
  - reflexivity.
  - rewrite mem_char_append. cbn [Path.mem_char].
    rewrite mem_char_stamp by reflexivity. reflexivity.
Qed.

End PathFacts.

Section FSFacts.
Implicit Types fs : FS.t.

Lemma is_dir_elem fs p : p ∈ FS.dirs fs -> FS.is_dir fs p = true.
Proof.
  intros H. unfold FS.is_dir. rewrite (bool_decide_eq_true_2 _ H).
  by rewrite orb_true_r.
Qed.

Lemma is_dir_mono fs fs' p :
  FS.dirs fs ⊆ FS.dirs fs' -> FS.is_dir fs p = true -> FS.is_dir fs' p = true.
Proof.
  unfold FS.is_dir. intros Hsub.
  rewrite !orb_true_iff, !bool_decide_eq_true.
  intros [[?|?]|?]; auto.
Qed.

Lemma is_dir_add_dir fs p : FS.is_dir (FS.add_dir p fs) p = true.
Proof.
  apply is_dir_elem. cbn. apply elem_of_union_l. by apply elem_of_singleton.
Qed.

(** [mkdir_p] leaves the files alone, keeps every directory, and makes
    every prefix of the path a directory. *)
Lemma mkdir_p_spec todo : forall done fs fs',
  FS.mkdir_p done todo fs = Some fs' ->
  FS.files fs' = FS.files fs
  /\ FS.dirs fs ⊆ FS.dirs fs'
  /\ forall k, (0 < k <= length todo)%nat ->
       FS.is_dir fs' (done ++ take k todo) = true.
Proof.
  induction todo as [|c todo IH]; intros done fs fs' H.
  - cbn in H. injection H as <-. repeat split; [done|]. cbn. lia.
  - cbn [FS.mkdir_p] in H.
    assert (Hstep : forall fs1,
      FS.mkdir_p (done ++ [c]) todo fs1 = Some fs' ->
      FS.is_dir fs1 (done ++ [c]) = true ->
      forall k, (0 < k <= length (c :: todo))%nat ->
        FS.is_dir fs' (done ++ take k (c :: todo)) = true).
    { intros fs1 H1 Hd [|k] Hlen; [lia|]. cbn [take].
      apply IH in H1 as (_ & Hsub & Hk).
      destruct k as [|k].
      - rewrite take_0. by apply (is_dir_mono fs1).
      - rewrite (cons_middle c), app_assoc. apply Hk. cbn in Hlen. lia. }
    destruct (FS.is_dir fs (done ++ [c])) eqn:Hd.
    + pose proof (Hstep _ H Hd). apply IH in H as (? & ? & _). done.
    + destruct (FS.files fs !! (done ++ [c])) eqn:Hf; [done|].
      pose proof (Hstep _ H (is_dir_add_dir _ _)).
      apply IH in H as (Hfiles & Hsub & _). repeat split; [done| |done].
      cbn in Hsub. intros x Hx. apply Hsub. by apply elem_of_union_r.
Qed.

(** It succeeds when no prefix of the path is a file. *)
Lemma mkdir_p_ok todo : forall done fs,
  (forall k, FS.files fs !! (done ++ take k todo) = None) ->
  is_Some (FS.mkdir_p done todo fs).
Proof.
  induction todo as [|c todo IH]; intros done fs H; [by eexists|].
  cbn [FS.mkdir_p].
  assert (Hrest : forall k,
    FS.files fs !! ((done ++ [c]) ++ take k todo) = None).
  { intros k. rewrite <- app_assoc. apply (H (S k)). }
  destruct (FS.is_dir fs (done ++ [c])); [by apply IH|].
  pose proof (H 1%nat) as H1. cbn [take] in H1. rewrite take_0 in H1.
  rewrite H1. by apply IH.
Qed.

Lemma makedirs_save_dir fs :
  FS.makedirs SAVE_DIR true fs
  = if FS.is_dir fs [SAVE_DIR] then FS.Made fs
    else match FS.files fs !! [SAVE_DIR] with
         | Some _ => FS.FileExistsError
         | None => FS.Made (FS.add_dir [SAVE_DIR] fs)
         end.
Proof.
  unfold FS.makedirs.
  change (Path.components SAVE_DIR) with [SAVE_DIR].
  destruct (FS.is_dir fs [SAVE_DIR]) eqn:Hd; [done|].
  cbn [FS.mkdir_p app]. rewrite Hd.
  by destruct (FS.files fs !! [SAVE_DIR]).
Qed.

Lemma imwrite_stamp fs t fr :
  FS.is_dir fs [SAVE_DIR] = true ->
  cv2.imwrite (Path.join SAVE_DIR (stamp_name t)) (Some fr) fs
  = if FS.is_dir fs [SAVE_DIR; stamp_name t] then cv2.NotWritten
    else cv2.Written
           (FS.put_file [SAVE_DIR; stamp_name t] (Image JPEG fr) fs).
Proof.
  intros Hd. unfold cv2.imwrite.
  rewrite extension_stamp, components_stamp. cbn [mbind option_bind].
  change (cv2.encoder_of "jpg") with (Some JPEG).
  cbn [rev app]. rewrite Hd.
  by destruct (FS.is_dir fs [SAVE_DIR; stamp_name t]).
Qed.

(** Whether a directory sits at a stamp path does not change in a run. *)
Lemma is_dir_stamp (fs fs' : FS.t) t :
  FS.dirs fs' = FS.dirs fs \/ FS.dirs fs' = {[ [SAVE_DIR] ]} ∪ FS.dirs fs ->
  FS.is_dir fs' [SAVE_DIR; stamp_name t] = FS.is_dir fs [SAVE_DIR; stamp_name t].
Proof.
  unfold FS.is_dir. intros [-> | ->]; [done|]. f_equal.
  apply bool_decide_ext. rewrite elem_of_union, elem_of_singleton.
  split; [by intros [?|?]|by right].
Qed.

Lemma writes_stamp env t :
  writes env (Path.join SAVE_DIR (stamp_name t))
  = negb (FS.is_dir (fs0 env) [SAVE_DIR; stamp_name t]).
Proof. unfold writes. by rewrite components_stamp. Qed.

End FSFacts.

(** ** The invariant *)

Ltac simp_state :=
  cbn [pc goto emit set_stream_url set_cap set_save_dir set_ret_frame
       set_filename set_filepath set_fs
       log fs cap stream_url save_dir ret frame filename filepath
       n_release n_opens n_reads n_nows reads_ok saved_frames save_paths in_try] in *.

Ltac open_pc := unfold at_pc, loop_vars; simp_state.

Section Invariant.
Context (env : Env).

Lemma fs_ok_emit f l e : fs_ok env f l -> fs_ok env f (e :: l).
Proof.
  intros [Hd H]. split; [done|]. intros p.
  destruct (H p) as [?|(path & fr & Hin & ? & ?)]; auto.
  right. exists path, fr. split; [by right|done].
Qed.

Lemma saved_ok_emit f l e :
  (forall p o, e <> Imwrite p o true) -> saved_ok f l -> saved_ok f (e :: l).
Proof.
  intros He H path o [->|Hin]; [by destruct (He path o)|]. by eapply H.
Qed.

Ltac fin :=
  first [ done | by cbn | cbn; lia | by apply fs_ok_emit
        | by apply saved_ok_emit | by (cbn; eauto) ].

Lemma init_inv : Inv env (init env).
Proof.
  constructor; cbn; auto.
  - split; [by left|]. intros p. by left.
  - intros ?? [].
Qed.

Lemma interrupt_inv s :
  (forall o, pc s <> Halt o) -> Inv env s -> Inv env (interrupt s).
Proof.
  intros Hrun [Hpc Hlog Hpend Hrel Hopen Hpaths Hfs Hsaved].
  destruct s as [l url c dir r fr fn fp f lg].
  unfold interrupt. simp_state.
  constructor; simp_state;
    [| by cbn | done | done | done | done | by apply fs_ok_emit
     | by apply saved_ok_emit].
  unfold at_pc, loop_vars in *. simp_state.
  destruct l; simp_state; try (by destruct (Hrun o)).
  all: try (eexists _, _; split; reflexivity).
  all: split; [tauto|]; eexists _, _; split; [reflexivity|split; [reflexivity|tauto]].
Qed.

Lemma exec_inv s : Inv env s -> Inv env (exec env s).
Proof.
  intros [Hpc Hlog Hpend Hrel Hopen Hpaths Hfs Hsaved].
  destruct s as [l url c dir r fr fn fp f lg].
  unfold exec. simp_state. unfold at_pc, loop_vars in Hpc. simp_state.
  destruct l.
  - (* L07 *) destruct Hpc as [-> ->].
    constructor; simp_state; try fin.
  - (* L10 *) destruct Hpc as (-> & -> & ->).
    constructor; simp_state; try fin.
  - (* L12 *) destruct Hpc as (-> & -> & ->).
    destruct (stream_opens env) eqn:Ho; cbn [negb];
      constructor; simp_state; try fin.
  - (* L13 *) destruct Hpc as (-> & -> & Ho).
    constructor; simp_state; try fin.
  - (* L14 *) destruct Hpc as (-> & -> & Ho).
    constructor; simp_state; try fin.
  - (* L17 *) destruct Hpc as (-> & -> & ->).
    constructor; simp_state; try fin.
  - (* L18 *) destruct Hpc as (-> & -> & -> & ->).
    rewrite makedirs_save_dir.
    destruct (FS.is_dir (fs0 env) [SAVE_DIR]) eqn:Hd;
      [|destruct (FS.files (fs0 env) !! [SAVE_DIR]) as [x|] eqn:Hf].
    + constructor; simp_state; try fin.
      open_pc. repeat split; try done. by left.
    + constructor; simp_state; try fin.
    + constructor; simp_state; try fin.
      * open_pc. repeat split; try done;
          [apply is_dir_add_dir | by right].
      * split; [by right|]. intros p. by left.
  - (* L20 *) destruct Hpc as (-> & Hv & Hf).
    constructor; simp_state; try fin.
  - (* L22 *) destruct Hpc as (-> & Hv).
    constructor; simp_state; try fin.
    open_pc. unfold settled. simp_state. eauto 10.
  - (* L24 *) destruct Hpc as ((-> & Hv) & Hrs & Hhead).
    constructor; simp_state; try fin.
    + open_pc. split; [done|]. eexists. split; [reflexivity|].
      split; [|done]. by destruct (read_result env _).
    + destruct Hrs as (Hrs & _).
      destruct (read_result env _); simp_state; rewrite ?Hrs; eauto.
  - (* L25 *) destruct Hpc as (Hv & l' & -> & -> & Hrs).
    destruct fr as [x|]; cbn [negb]; constructor; simp_state; try fin;
      try (open_pc; eauto 10).
  - (* L26 *) destruct Hpc as (Hv & l' & -> & Hrs).
    constructor; simp_state; try fin; try (open_pc; eauto 10).
  - (* L27 *) destruct Hpc as (Hv & l' & -> & Hrs).
    constructor; simp_state; try fin.
    open_pc. split; [tauto|]. eexists _, _. split; [reflexivity|].
    split; [by left | tauto].
  - (* L30 *) destruct Hpc as (Hv & x & l' & -> & -> & Hrs).
    constructor; simp_state; try fin.
    open_pc. split; [done|]. by eexists _, _, _.
  - (* L31 *) destruct Hpc as ((? & -> & ?) & t & x & l' & -> & -> & -> & Hrs).
    constructor; simp_state; try fin.
    open_pc. split; [done|]. by eexists _, _, _.
  - (* L32 *) destruct Hpc as (Hv & t & x & l' & -> & -> & -> & -> & Hrs).
    rewrite imwrite_stamp by tauto.
    rewrite (is_dir_stamp (fs0 env) f t (proj1 Hfs)).
    pose proof (writes_stamp env t) as Hw.
    destruct (FS.is_dir (fs0 env) [SAVE_DIR; stamp_name t]) eqn:Hdir;
      cbn [negb] in Hw.
    { (* a directory is in the way *)
      constructor; simp_state; try fin.
      + open_pc. split; [done|]. eexists _, _, _. rewrite Hw.
        repeat split; try reflexivity; try apply Hrs. done.
      + split; [|done]. eexists _, _, _. by rewrite Hw.
      + left. destruct Hrs as (-> & _). done.
      + destruct Hrs as (_ & _ & Hn). destruct Hlog as (Ht & _).
        simp_state. cbn [length paths_upto]. rewrite <- Hpaths, <- Hn.
        by rewrite <- Ht. }
    constructor; simp_state; try fin.
    + open_pc. split; [done|]. eexists _, _, _. rewrite Hw.
      repeat split; try reflexivity; try apply Hrs.
      intros _. cbn. apply lookup_insert_eq.
    + split; [|done]. eexists _, _, _. by rewrite Hw.
    + left. destruct Hrs as (-> & _). done.
    + destruct Hrs as (_ & _ & Hn). destruct Hlog as (Ht & _).
      simp_state. cbn [length paths_upto]. rewrite <- Hpaths, <- Hn.
      by rewrite <- Ht.
    + destruct Hfs as [Hd Hfs]. split; [done|]. intros p.
      destruct (decide (p = [SAVE_DIR; stamp_name t])) as [->|Hne].
      * right. exists (Path.join SAVE_DIR (stamp_name t)), x.
        split; [by left|]. split; [by rewrite components_stamp|].
        cbn. apply lookup_insert_eq.
      * cbn. rewrite lookup_insert_ne by done.
        destruct (Hfs p) as [?|(path & y & Hin & ? & ?)]; auto.
        right. exists path, y. split; [by right|done].
    + intros path o [Heq|Hin].
      * injection Heq as <- <-. rewrite components_stamp.
        eexists. cbn. apply lookup_insert_eq.
      * destruct (Hsaved path o Hin) as [y Hy].
        destruct (decide (Path.components path = [SAVE_DIR; stamp_name t]))
          as [->|Hne].
        -- eexists. cbn. apply lookup_insert_eq.
        -- exists y. cbn. by rewrite lookup_insert_ne.
  - (* L33 *) destruct Hpc as (Hv & t & x & l' & -> & -> & Hp & -> & Hb & Hrs).
    constructor; simp_state; try fin.
    open_pc. split; [done|]. eexists _, _, _.
    repeat split; try reflexivity; try apply Hrs; done.
  - (* L36 *) destruct Hpc as (Hv & t & x & l' & -> & -> & Hp & -> & Hb & Hrs).
    constructor; simp_state; try fin.
    open_pc. split; [done|]. split; [|eauto].
    destruct Hrs as (Hr1 & Hr2 & Hr3). unfold settled. simp_state.
    by rewrite Hr1, Hr2, Hr3.
  - (* L39 *) destruct Hpc as (-> & l & l' & -> & Hl & Hr).
    constructor; simp_state; try fin.
    open_pc. split; [done|]. eexists _, _. split; [reflexivity|].
    split; [by right|done].
  - (* L41 *) destruct Hpc as (-> & m & l' & -> & Hm & Hr).
    constructor; simp_state; try fin.
    open_pc. split; [done|]. by eexists _, _.
  - (* L42 *) destruct Hpc as (-> & m & l' & -> & Hm & Hr).
    constructor; simp_state; try fin.
    open_pc. split; [done|]. by eexists _, _.
  - (* Halt *) by constructor.
Qed.
End Invariant.

(** ** Runs *)

Ltac norm_state :=
  cbv [goto emit set_stream_url set_cap set_save_dir set_ret_frame
       set_filename set_filepath set_fs
       pc stream_url cap save_dir ret frame filename filepath fs log negb].

Section RunFacts.
Context (env : Env).

Lemma step_inv i s : Inv env s -> Inv env (step env i s).
Proof.
  intros H. unfold step.
  destruct (pc s) eqn:Hpc; try done;
    (destruct (sigint env i);
     [apply interrupt_inv; [rewrite Hpc; done | done] | by apply exec_inv]).
Qed.

Lemma run_from_add n : forall i s m,
  run_from env i s (n + m) = run_from env (i + n) (run_from env i s n) m.
Proof.
  induction n as [|n IH]; intros i s m; cbn [run_from Nat.add].
  - by rewrite Nat.add_0_r.
  - replace (i + S n)%nat with (S i + n)%nat by lia. apply IH.
Qed.

Lemma run_add n m : run env (n + m) = run_from env n (run env n) m.
Proof. unfold run. by rewrite run_from_add. Qed.

Lemma run_S n : run env (S n) = step env n (run env n).
Proof. replace (S n) with (n + 1)%nat by lia. by rewrite run_add. Qed.

Lemma run_inv n : Inv env (run env n).
Proof.
  induction n as [|n IH]; [apply init_inv|].
  rewrite run_S. by apply step_inv.
Qed.

Lemma run_from_halted o n : forall i s,
  pc s = Halt o -> run_from env i s n = s.
Proof.
  induction n as [|n IH]; intros i s H; [done|].
  cbn [run_from]. unfold step. rewrite H. by apply IH.
Qed.

Lemma run_halted n o m :
  pc (run env n) = Halt o -> (n <= m)%nat -> run env m = run env n.
Proof.
  intros H Hle. replace m with (n + (m - n))%nat by lia.
  rewrite run_add. by eapply run_from_halted.
Qed.

Lemma step_exec i s :
  sigint env i = false -> step env i s = exec env s.
Proof.
  intros H. unfold step. rewrite H. unfold exec. by destruct (pc s).
Qed.

Lemma step_interrupt i s :
  in_try (pc s) = true -> sigint env i = true -> step env i s = interrupt s.
Proof.
  intros Ht H. unfold step. rewrite H. by destruct (pc s).
Qed.

(** *** Runs of several lines *)

Lemma run_from_S i s k :
  run_from env i s (S k) = run_from env (S i) (step env i s) k.
Proof. reflexivity. Qed.

Ltac one_step Hsig :=
  rewrite run_from_S; rewrite step_exec by (apply Hsig; lia);
  unfold exec; norm_state.

(** Lines 7 to 14 when the stream does not open. *)
Lemma open_failure_steps :
  stream_opens env = false ->
  (forall i, (i < 5)%nat -> sigint env i = false) ->
  run env 5
  = mk_state (Halt (SystemExit None)) STREAM_URL false "" false None "" ""
      (fs0 env)
      [Exit; Printed MSG_OPEN_FAILED; VideoCapture STREAM_URL false].
Proof.
  intros Ho Hsig. unfold run, init.
  one_step Hsig. one_step Hsig. rewrite Ho.
  one_step Hsig. one_step Hsig. one_step Hsig. reflexivity.
Qed.

(** Lines 7 to 22 when the stream opens and the directory can be made. *)
Lemma startup_steps :
  stream_opens env = true ->
  (FS.is_dir (fs0 env) [SAVE_DIR] = true
   \/ FS.files (fs0 env) !! [SAVE_DIR] = None) ->
  (forall i, (i < 7)%nat -> sigint env i = false) ->
  run env 7
  = mk_state L24 STREAM_URL true SAVE_DIR false None "" ""
      (if FS.is_dir (fs0 env) [SAVE_DIR] then fs0 env
       else FS.add_dir [SAVE_DIR] (fs0 env))
      [Printed MSG_START; Makedirs SAVE_DIR; VideoCapture STREAM_URL true].
Proof.
  intros Ho Hdir Hsig. unfold run, init.
  one_step Hsig. one_step Hsig. rewrite Ho.
  one_step Hsig. one_step Hsig. one_step Hsig. rewrite makedirs_save_dir.
  destruct (FS.is_dir (fs0 env) [SAVE_DIR]) eqn:Hd.
  - one_step Hsig. one_step Hsig. reflexivity.
  - destruct Hdir as [? | ->]; [done|]. one_step Hsig. one_step Hsig.
    reflexivity.
Qed.

(** Lines 24 to 36 when the read delivers a frame. *)
Lemma iteration_steps n s f :
  pc s = L24 -> cap s = true -> save_dir s = SAVE_DIR ->
  FS.is_dir (fs s) [SAVE_DIR] = true ->
  read_result env (n_reads (log s)) = Some f ->
  (forall i, (n <= i < n + 7)%nat -> sigint env i = false) ->
  let t := now env (n_nows (log s)) in
  let path := Path.join SAVE_DIR (stamp_name t) in
  let w := negb (FS.is_dir (fs s) [SAVE_DIR; stamp_name t]) in
  run_from env n s 7
  = mk_state L24 (stream_url s) true SAVE_DIR true (Some f)
      (stamp_name t) path
      (if w then FS.put_file [SAVE_DIR; stamp_name t] (Image JPEG f) (fs s)
       else fs s)
      (Sleep 60 :: Printed (MSG_SAVED path) :: Imwrite path (Some f) w
       :: Now t :: Read (Some f) :: log s).
Proof.
  destruct s as [l url c dir r fr fn fp fs lg]. norm_state.
  intros -> -> -> Hd Hr Hsig.
  one_step Hsig. rewrite Hr.
  one_step Hsig. one_step Hsig. one_step Hsig. one_step Hsig.
  cbn [n_nows]. fold (stamp_name (now env (n_nows lg))).
  rewrite imwrite_stamp by done.
  destruct (FS.is_dir fs [SAVE_DIR; stamp_name (now env (n_nows lg))]);
    one_step Hsig; one_step Hsig; reflexivity.
Qed.

(** Lines 24 to 27, then 41 and 42, when the read fails. *)
Lemma read_failure_steps n s :
  pc s = L24 -> cap s = true ->
  read_result env (n_reads (log s)) = None ->
  (forall i, (n <= i < n + 6)%nat -> sigint env i = false) ->
  run_from env n s 6
  = mk_state (Halt Finished) (stream_url s) false (save_dir s) false None
      (filename s) (filepath s) (fs s)
      (DestroyAllWindows :: Release :: Printed MSG_READ_FAILED
       :: Read None :: log s).
Proof.
  destruct s as [l url c dir r fr fn fp fs lg]. norm_state.
  intros -> -> Hr Hsig.
  one_step Hsig. rewrite Hr.
  one_step Hsig. one_step Hsig. one_step Hsig. one_step Hsig.
  one_step Hsig. reflexivity.
Qed.

(** Ctrl+C inside [try]: lines 39, 41 and 42. *)
Lemma cancel_steps n s :
  in_try (pc s) = true ->
  sigint env n = true ->
  (forall i, (n < i < n + 4)%nat -> sigint env i = false) ->
  run_from env n s 4
  = mk_state (Halt Finished) (stream_url s) false (save_dir s) (ret s)
      (frame s) (filename s) (filepath s) (fs s)
      (DestroyAllWindows :: Release :: Printed MSG_STOPPED
       :: Sigint (pc s) :: log s).
Proof.
  intros Ht Hi Hsig.
  rewrite run_from_S, step_interrupt by done. unfold interrupt. rewrite Ht.
  destruct s as [l url c dir r fr fn fp fs lg]. norm_state.
  one_step Hsig. one_step Hsig. one_step Hsig. reflexivity.
Qed.

End RunFacts.

(** ** The claims *)

Section TraceFacts.

Lemma n_reads_app l1 l2 : n_reads (l1 ++ l2) = (n_reads l1 + n_reads l2)%nat.
Proof. induction l1 as [|[] l1 IH]; cbn; auto. Qed.

Lemma n_nows_app l1 l2 : n_nows (l1 ++ l2) = (n_nows l1 + n_nows l2)%nat.
Proof. induction l1 as [|[] l1 IH]; cbn; auto. Qed.

Lemma n_release_app l1 l2 :
  n_release (l1 ++ l2) = (n_release l1 + n_release l2)%nat.
Proof. induction l1 as [|[] l1 IH]; cbn; auto. Qed.

Lemma n_opens_app l1 l2 : n_opens (l1 ++ l2) = (n_opens l1 + n_opens l2)%nat.
Proof. induction l1 as [|[] l1 IH]; cbn; auto. Qed.



Lemma save_paths_app l1 l2 :
  save_paths (l1 ++ l2) = save_paths l1 ++ save_paths l2.
Proof. induction l1 as [|[] l1 IH]; cbn; auto. by rewrite IH. Qed.

Lemma n_reads_rev l : n_reads (rev l) = n_reads l.
Proof.
  induction l as [|e l IH]; [done|]. cbn [rev]. rewrite n_reads_app, IH.
  destruct e; cbn; lia.
Qed.

Lemma n_nows_rev l : n_nows (rev l) = n_nows l.
Proof.
  induction l as [|e l IH]; [done|]. cbn [rev]. rewrite n_nows_app, IH.
  destruct e; cbn; lia.
Qed.

Lemma n_release_rev l : n_release (rev l) = n_release l.
Proof.
  induction l as [|e l IH]; [done|]. cbn [rev]. rewrite n_release_app, IH.
  destruct e; cbn; lia.
Qed.

Lemma n_opens_rev l : n_opens (rev l) = n_opens l.
Proof.
  induction l as [|e l IH]; [done|]. cbn [rev]. rewrite n_opens_app, IH.
  destruct e; cbn; lia.
Qed.



Lemma save_paths_rev l : save_paths (rev l) = rev (save_paths l).
Proof.
  induction l as [|e l IH]; [done|]. cbn [rev]. rewrite save_paths_app, IH.
  destruct e; cbn; by rewrite ?app_nil_r.
Qed.

End TraceFacts.

Section ClosedStream.
Context (env : Env) (Hclosed : stream_opens env = false).

Lemma closed_step i s : closed_inv env s -> closed_inv env (step env i s).
Proof.
  intros (Hl & Hfs & Hev). unfold step.
  destruct s as [l url c dir r fr fn fp f lg].
  unfold closed_inv, closed_line in *. simp_state.
  destruct l; try done;
    (destruct (sigint env i);
     [ unfold interrupt; norm_state; cbn [in_try];
       repeat split; try done; by constructor
     | unfold exec; norm_state ]).
  all: rewrite ?Hclosed, ?Hl; norm_state.
  all: repeat split; try done; by constructor.
Qed.

Lemma closed_run n : closed_inv env (run env n).
Proof.
  induction n as [|n IH].
  - repeat split; done || constructor.
  - rewrite run_S. by apply closed_step.
Qed.

End ClosedStream.

Section Termination.
Context (env : Env).

Lemma startup_events_quiet l :
  Forall startup_event l ->
  n_release l = O /\ n_reads l = O /\ save_paths l = []
  /\ forall d, ~ In (Makedirs d) l.
Proof.
  induction 1 as [|e l He _ (IH1 & IH2 & IH3 & IH4)]; [by repeat split; auto|].
  destruct e; try done; cbn; repeat split; auto;
    intros d [?|?]; try done; by eapply IH4.
Qed.

Lemma closed_quiet n :
  stream_opens env = false ->
  fs (run env n) = fs0 env
  /\ n_release (trace (run env n)) = O
  /\ n_reads (trace (run env n)) = O
  /\ save_paths (trace (run env n)) = []
  /\ forall d, ~ In (Makedirs d) (trace (run env n)).
Proof.
  intros Hc. destruct (closed_run env Hc n) as (_ & Hfs & Hev).
  apply startup_events_quiet in Hev as (H1 & H2 & H3 & H4).
  unfold trace. rewrite n_release_rev, n_reads_rev, save_paths_rev, H3.
  repeat split; auto. intros d Hd. apply (H4 d). by apply in_rev.
Qed.

(** From a state inside the loop, the exit through a failed read. *)
Lemma read_failure_run n :
  let s := run env n in
  pc s = L24 ->
  read_result env (n_reads (log s)) = None ->
  (forall i, (n <= i < n + 6)%nat -> sigint env i = false) ->
  let s' := run env (n + 6) in
  pc s' = Halt Finished /\ cap s' = false /\ fs s' = fs s
  /\ log s' = DestroyAllWindows :: Release :: Printed MSG_READ_FAILED
              :: Read None :: log s
  /\ n_release (log s) = O /\ n_opens (log s) = 1%nat /\ settled (log s).
Proof.
  intros s Hpc Hr Hsig s'.
  pose proof (inv_pc _ _ (run_inv env n)) as Hat.
  unfold at_pc in Hat. fold s in Hat. rewrite Hpc in Hat.
  destruct Hat as ((Hcap & _ & _ & Hrel & Hop) & Hset & _).
  unfold s'. rewrite run_add. fold s.
  rewrite (read_failure_steps env n s Hpc Hcap Hr Hsig).
  repeat (split; [done|]). done.
Qed.

(** From a state inside [try], the exit through Ctrl+C. *)
Lemma cancel_run n :
  let s := run env n in
  in_try (pc s) = true ->
  sigint env n = true ->
  (forall i, (n < i < n + 4)%nat -> sigint env i = false) ->
  let s' := run env (n + 4) in
  pc s' = Halt Finished /\ cap s' = false /\ fs s' = fs s
  /\ log s' = DestroyAllWindows :: Release :: Printed MSG_STOPPED
              :: Sigint (pc s) :: log s
  /\ n_release (log s) = O.
Proof.
  intros s Ht Hi Hsig s'.
  pose proof (inv_pc _ _ (run_inv env n)) as Hat.
  unfold at_pc, loop_vars in Hat. fold s in Hat.
  assert (n_release (log s) = O) as Hrel
    by (destruct (pc s); try done; tauto).
  unfold s'. rewrite run_add. fold s.
  rewrite (cancel_steps env n s Ht Hi Hsig).
  repeat (split; [done|]). done.
Qed.

Lemma cleaned_up_intro s l :
  pc s = Halt Finished -> cap s = false ->
  log s = DestroyAllWindows :: Release :: l -> n_release l = O ->
  cleaned_up s.
Proof.
  intros Hpc Hcap Hlog Hrel. unfold cleaned_up, trace.
  rewrite n_release_rev, Hlog. cbn [n_release]. rewrite Hrel.
  repeat split; try done. exists (rev l). cbn [rev].
  by rewrite <- app_assoc.
Qed.

End Termination.

(** C1 (as amended).  A failed read, and a Ctrl+C raised inside [try],
    both lead within six steps to the single cleanup of lines 41 and 42:
    the handle is released there, exactly once, and the script ends by
    running past its last line.  A stream that does not open ends the
    script at [exit()] on line 14 instead, after the error was printed: no
    exception escapes, and [cap.release()] is never called. *)
Theorem cleanup_after_loop_exit (env : Env) :
  (forall n,
     let s := run env n in
     in_try (pc s) = true ->
     sigint env n = true
     \/ (pc s = L24 /\ read_result env (n_reads (trace s)) = None) ->
     (forall i, (n < i < n + 6)%nat -> sigint env i = false) ->
     exists k, (k <= 6)%nat /\ cleaned_up (run env (n + k))
               /\ n_release (trace s) = O)
  /\ (stream_opens env = false ->
      (forall i, (i < 5)%nat -> sigint env i = false) ->
      pc (run env 5) = Halt (SystemExit None)
      /\ trace (run env 5)
         = [VideoCapture STREAM_URL false; Printed MSG_OPEN_FAILED; Exit]
      /\ forall m, n_release (trace (run env m)) = O).
Proof.
  split.
  - intros n s Ht Hwhy Hsig.
    destruct (sigint env n) eqn:Hn.
    + destruct (cancel_run env n Ht Hn) as (Hpc & Hcap & _ & Hlog & Hrel).
      { intros i Hi. apply Hsig. lia. }
      exists 4%nat. split; [lia|]. split.
      * eapply cleaned_up_intro; eauto.
      * unfold trace. by rewrite n_release_rev.
    + destruct Hwhy as [?|[Hpc Hr]]; [done|].
      unfold trace in Hr. rewrite n_reads_rev in Hr.
      destruct (read_failure_run env n Hpc Hr)
        as (Hpc' & Hcap & _ & Hlog & Hrel & _).
      { intros i Hi. destruct (decide (i = n)) as [->|]; [done|].
        apply Hsig. lia. }
      exists 6%nat. split; [lia|]. split.
      * eapply cleaned_up_intro; eauto.
      * unfold trace. by rewrite n_release_rev.
  - intros Hc Hsig. split; [|split].
    + by rewrite open_failure_steps.
    + by rewrite open_failure_steps.
    + intros m. by apply closed_quiet.
Qed.

(** A failed read of the fourth frame is followed by the cleanup. *)
Lemma cleanup_after_loop_exit_witness :
  exists k, (k <= 6)%nat /\ cleaned_up (run env_three_frames (28 + k))
            /\ n_release (trace (run env_three_frames 28)) = O.
Proof.
  apply (proj1 (cleanup_after_loop_exit env_three_frames) 28%nat).
  - reflexivity.
  - right. split; reflexivity.
  - intros i _. reflexivity.
Defined.

(** C1 (as stated) fails: when the stream does not open the script has
    ended after five steps, and it never calls [cap.release()]. *)
Lemma open_failure_skips_cleanup :
  pc (run env_closed 5) = Halt (SystemExit None)
  /\ forall m, n_release (trace (run env_closed m)) = O.
Proof.
  split; [reflexivity|]. intros m. by apply closed_quiet.
Qed.

(** C2 (as amended).  When the stream does not open, the script never
    reads a frame, never creates the directory and never writes a file: the
    file system stays as it was at launch.  Left alone, it prints the error
    and stops at [exit()] within five steps.  [exit()] is called without an
    argument, so the exit status is 0. *)
Theorem open_failure_fails_fast (env : Env) :
  stream_opens env = false ->
  (forall n,
     fs (run env n) = fs0 env
     /\ n_reads (trace (run env n)) = O
     /\ save_paths (trace (run env n)) = []
     /\ forall d, ~ In (Makedirs d) (trace (run env n)))
  /\ ((forall i, (i < 5)%nat -> sigint env i = false) ->
      pc (run env 5) = Halt (SystemExit None)
      /\ exit_status (SystemExit None) = 0
      /\ trace (run env 5)
         = [VideoCapture STREAM_URL false; Printed MSG_OPEN_FAILED; Exit]
      /\ forall m, (5 <= m)%nat -> run env m = run env 5).
Proof.
  intros Hc. split.
  - intros n. destruct (closed_quiet env n Hc) as (? & _ & ? & ? & ?). done.
  - intros Hsig. pose proof (open_failure_steps env Hc Hsig) as Hrun.
    repeat split; try by rewrite Hrun.
    intros m Hm. eapply run_halted; [|done]. by rewrite Hrun.
Qed.

Lemma open_failure_fails_fast_witness :
  fs (run env_closed 9) = fs0 env_closed
  /\ n_reads (trace (run env_closed 9)) = O
  /\ pc (run env_closed 5) = Halt (SystemExit None)
  /\ trace (run env_closed 5)
     = [VideoCapture STREAM_URL false; Printed MSG_OPEN_FAILED; Exit].
Proof.
  destruct (open_failure_fails_fast env_closed) as [Hquiet Hexit];
    [reflexivity|].
  destruct (Hquiet 9%nat) as (Hfs & Hreads & _).
  destruct Hexit as (Hpc & _ & Htr & _); [intros i _; reflexivity|].
  split; [exact Hfs|]. split; [exact Hreads|]. split; [exact Hpc | exact Htr].
Defined.

(** C2 (as stated) fails: the stream does not open, the script stops at
    [exit()], and whenever it has stopped its exit status is 0. *)
Lemma open_failure_exit_status_zero :
  stream_opens env_closed = false
  /\ pc (run env_closed 5) = Halt (SystemExit None)
  /\ forall n o, pc (run env_closed n) = Halt o -> exit_status o = 0.
Proof.
  split; [reflexivity|]. split; [reflexivity|]. intros n o Ho.
  destruct (le_lt_dec 5 n) as [Hle|Hlt].
  - rewrite (run_halted env_closed 5 (SystemExit None) n) in Ho by done.
    by injection Ho as <-.
  - do 5 (destruct n as [|n]; [discriminate Ho|]). lia.
Qed.

Section Names.
Context (env : Env).

Lemma to_micros_split t :
  valid t = true ->
  to_micros t = to_seconds t * 1000000 + microsecond t
  /\ 0 <= microsecond t < 1000000.
Proof. intros Hv%valid_bounds. unfold to_micros. lia. Qed.

Lemma stamp_seconds_of t : stamp_seconds (stamp_of t) = to_seconds t.
Proof. reflexivity. Qed.

(** Equal names come from the same second. *)
Lemma stamp_name_seconds t1 t2 :
  valid t1 = true -> valid t2 = true ->
  stamp_name t1 = stamp_name t2 -> to_seconds t1 = to_seconds t2.
Proof.
  intros H1 H2 Heq.
  pose proof (parse_stamp_strftime t1 ".jpg" H1) as P1.
  pose proof (parse_stamp_strftime t2 ".jpg" H2) as P2.
  fold (stamp_name t1) in P1. fold (stamp_name t2) in P2.
  rewrite Heq, P2 in P1.
  assert (E : stamp_of t2 = stamp_of t1) by congruence.
  by rewrite <- !stamp_seconds_of, E.
Qed.

Lemma append_inv_head a x y : a +:+ x = a +:+ y -> x = y.
Proof.
  induction a as [|c a IH]; [done|].
  rewrite !append_cons. intros H. injection H as H. by apply IH.
Qed.

Lemma strip_prefix_append a b : strip_prefix a (a +:+ b) = Some b.
Proof.
  induction a as [|c a IH]; [by destruct b|].
  rewrite append_cons. cbn [strip_prefix]. by rewrite Ascii.eqb_refl.
Qed.

Lemma path_stamp_join t :
  valid t = true ->
  path_stamp (Path.join SAVE_DIR (stamp_name t)) = Some (stamp_of t).
Proof.
  intros Hv. unfold path_stamp. rewrite join_stamp.
  change (SAVE_DIR +:+ String "/" (stamp_name t))
    with (SAVE_DIR +:+ ("/" +:+ stamp_name t)).
  rewrite <- append_assoc, strip_prefix_append. cbn [mbind option_bind].
  unfold stamp_name. rewrite parse_stamp_strftime by done. reflexivity.
Qed.

Lemma paths_upto_chronological k :
  rev (paths_upto env k) = map (path_of env) (seq 0 k).
Proof.
  induction k as [|k IH]; [done|].
  cbn [paths_upto rev]. by rewrite IH, seq_S, map_app.
Qed.

Lemma seconds_of_paths (l : list nat) :
  (forall i, In i l -> valid (now env i) = true) ->
  omap (fun p => stamp_seconds <$> path_stamp p) (map (path_of env) l)
  = map (fun i => to_seconds (now env i)) l.
Proof.
  induction l as [|i l IH]; [done|]. intros Hv.
  cbn [map omap list_omap]. unfold path_of at 1.
  rewrite path_stamp_join by (apply Hv; by left).
  cbn [fmap option_fmap option_map]. rewrite stamp_seconds_of.
  f_equal. apply IH. intros j Hj. apply Hv. by right.
Qed.

Lemma sorted_seq (g : nat -> Z) k : forall a,
  (forall i j, (a <= i < j)%nat -> (j < a + k)%nat -> g i < g j) ->
  StronglySorted Z.lt (map g (seq a k)).
Proof.
  induction k as [|k IH]; intros a Hg; [constructor|].
  cbn [seq map]. constructor.
  - apply IH. intros i j Hij Hj. apply Hg; lia.
  - apply Forall_map, Forall_forall. intros j [Hj1 Hj2]%elem_of_seq.
    apply Hg; lia.
Qed.

Lemma increasing_steps (g : nat -> Z) k :
  (forall i, (S i < k)%nat -> g i < g (S i)) ->
  forall i j, (i < j)%nat -> (j < k)%nat -> g i < g j.
Proof.
  intros Hstep i j Hij. induction Hij as [|j Hij IH]; intros Hk.
  - by apply Hstep.
  - etrans; [apply IH; lia|]. by apply Hstep.
Qed.

Lemma save_paths_chronological n :
  save_paths (trace (run env n))
  = map (path_of env) (seq 0 (length (save_paths (trace (run env n))))).
Proof.
  unfold trace. rewrite save_paths_rev, length_rev.
  rewrite (inv_paths _ _ (run_inv env n)) at 1.
  apply paths_upto_chronological.
Qed.

End Names.

Section ReadFailure.
Context (env : Env).

Lemma save_paths_in l p :
  In p (save_paths l) -> exists o b, In (Imwrite p o b) l.
Proof.
  induction l as [|e l IH]; [done|].
  destruct e; cbn; try (intros H; destruct (IH H) as (o & b & ?); eauto).
  intros [->|H]; [eauto|]. destruct (IH H) as (o' & b' & ?); eauto.
Qed.

(** Every write of a log was handed a frame and a stamp path, and went
    through unless a directory was in its way. *)
Lemma log_ok_imwrite l p o b :
  log_ok env l -> In (Imwrite p o b) l ->
  b = writes env p
  /\ exists f t, o = Some f /\ p = Path.join SAVE_DIR (stamp_name t).
Proof.
  induction l as [|e l IH]; [done|]. intros [He Hl] [->|Hin]; auto.
  destruct He as (t & f & l'' & _ & -> & -> & ->). eauto.
Qed.

Lemma saved_files_exist n p :
  In p (save_paths (trace (run env n))) -> writes env p = true ->
  exists f, FS.files (fs (run env n)) !! Path.components p
            = Some (Image JPEG f).
Proof.
  unfold trace. rewrite save_paths_rev, <- in_rev.
  intros (o & b & Hin)%save_paths_in Hw.
  destruct (log_ok_imwrite _ _ _ _ (inv_log _ _ (run_inv env n)) Hin)
    as [Hb _].
  rewrite Hw in Hb. subst b.
  by eapply (inv_saved _ _ (run_inv env n)).
Qed.

(** The writes that went through are the saves no directory stood in the
    way of. *)
Lemma written_paths_filter l :
  log_ok env l ->
  written_paths l
  = map Path.components (List.filter (writes env) (save_paths l)).
Proof.
  induction l as [|e l IH]; [done|]. intros [He Hl].
  destruct e; cbn [written_paths save_paths]; auto.
  destruct He as (t & f & l'' & _ & _ & _ & ->).
  cbn [List.filter]. destruct (writes env path); cbn [map]; by rewrite IH.
Qed.

Lemma filter_all {A} (g : A -> bool) (l : list A) :
  (forall x, In x l -> g x = true) -> List.filter g l = l.
Proof.
  induction l as [|x l IH]; [done|]. intros H. cbn [List.filter].
  rewrite (H x) by (by left). f_equal. apply IH. intros y Hy. apply H.
  by right.
Qed.

Lemma elem_of_files_written l p :
  p ∈ files_written l
  <-> exists path o, In (Imwrite path o true) l /\ p = Path.components path.
Proof.
  unfold files_written. rewrite elem_of_list_to_set.
  induction l as [|e l IH].
  - split; [by intros ?%elem_of_nil|by intros (? & ? & [] & _)].
  - assert (Hskip : p ∈ written_paths l ->
      exists path o, In (Imwrite path o true) (e :: l)
                     /\ p = Path.components path).
    { intros (path & o & Hin & ->)%IH. exists path, o. split; [by right|done]. }
    destruct e as [| | | | | |q o [|]| | | |]; cbn [written_paths];
      try (split; [exact Hskip|];
           intros (path & o' & [Heq|Hin] & ->); [done|]; apply IH; eauto).
    rewrite elem_of_cons. split.
    + intros [->|Hin]; [|by apply Hskip]. exists q, o. split; [by left|done].
    + intros (path & o' & [Heq|Hin] & ->).
      * left. by injection Heq as -> _.
      * right. apply IH. eauto.
Qed.

Lemma files_written_rev l : files_written (rev l) = files_written l.
Proof.
  apply set_eq. intros p. rewrite !elem_of_files_written.
  split; intros (path & o & Hin & ->); exists path, o;
    (split; [|done]); [by apply in_rev|by apply in_rev in Hin].
Qed.

(** What is on disk: the files of the launch, and the files the writes
    that went through made. *)
Lemma files_on_disk n :
  dom (FS.files (fs (run env n)))
  = dom (FS.files (fs0 env)) ∪ files_written (trace (run env n)).
Proof.
  unfold trace. rewrite files_written_rev.
  destruct (run_inv env n) as [_ _ _ _ _ _ [_ Hfs] Hsaved].
  apply set_eq. intros p.
  rewrite elem_of_union, !elem_of_dom, elem_of_files_written. split.
  - intros Hp. destruct (Hfs p) as [Heq|(path & f & Hin & -> & _)].
    + left. by rewrite <- Heq.
    + right. eauto.
  - intros [Hp|(path & o & Hin & ->)].
    + destruct (Hfs p) as [Heq|(path & f & _ & _ & Heq)]; by rewrite Heq.
    + destruct (Hsaved path o Hin) as [f Hf]. by rewrite Hf.
Qed.

(** When no written file replaced a file of the launch, the disk holds
    the files of the launch and one more for each file written. *)
Lemma files_count n :
  dom (FS.files (fs0 env)) ## files_written (trace (run env n)) ->
  size (FS.files (fs (run env n)))
  = (size (FS.files (fs0 env)) + size (files_written (trace (run env n))))%nat.
Proof.
  intros Hdisj.
  rewrite <- (size_dom (D := gset (list string)) (FS.files (fs (run env n)))).
  rewrite <- (size_dom (D := gset (list string)) (FS.files (fs0 env))).
  rewrite files_on_disk. by apply size_union.
Qed.

Lemma size_list_to_set_le (l : list (list string)) :
  (size (list_to_set l : gset (list string)) <= length l)%nat.
Proof.
  induction l as [|x l IH]; [done|]. cbn [list_to_set length].
  rewrite size_union_alt, size_singleton.
  assert (size (list_to_set l ∖ {[x]} : gset (list string))
          <= size (list_to_set l : gset (list string)))%nat
    by (by apply subseteq_size, subseteq_difference_l).
  lia.
Qed.

Lemma files_written_le l :
  log_ok env l -> (size (files_written l) <= length (save_paths l))%nat.
Proof.
  intros Hok. unfold files_written. etrans; [apply size_list_to_set_le|].
  rewrite (written_paths_filter l Hok), length_map. apply filter_length_le.
Qed.

Lemma stamp_name_inj t1 t2 :
  valid t1 = true -> valid t2 = true ->
  stamp_name t1 = stamp_name t2 -> stamp_of t1 = stamp_of t2.
Proof.
  intros H1 H2 Heq.
  pose proof (parse_stamp_strftime t1 ".jpg" H1) as P1.
  pose proof (parse_stamp_strftime t2 ".jpg" H2) as P2.
  fold (stamp_name t1) in P1. fold (stamp_name t2) in P2.
  rewrite Heq in P1. congruence.
Qed.

(** Saves in different seconds, with no directory in the way, make as many
    files as there were saves. *)
Lemma files_written_distinct n :
  let tr := trace (run env n) in
  let k := length (save_paths tr) in
  (forall i, (i < k)%nat ->
     valid (now env i) = true /\ writes env (path_of env i) = true) ->
  (forall i j, (i < j < k)%nat -> stamp_of (now env i) <> stamp_of (now env j)) ->
  size (files_written tr) = k.
Proof.
  intros tr k Hok Hstamps.
  pose proof (save_paths_chronological env n) as Hpaths.
  fold tr in Hpaths. fold k in Hpaths.
  assert (Hlist : written_paths (log (run env n))
                  = map Path.components (rev (map (path_of env) (seq 0 k)))).
  { rewrite (written_paths_filter _ (inv_log _ _ (run_inv env n))).
    assert (Hsp : save_paths (log (run env n))
                  = rev (map (path_of env) (seq 0 k))).
    { rewrite <- Hpaths. unfold tr, trace.
      by rewrite save_paths_rev, rev_involutive. }
    rewrite Hsp. f_equal. apply filter_all.
    intros p [i [<- [_ Hi]%in_seq]]%in_rev%in_map_iff. apply Hok. lia. }
  unfold tr, trace. rewrite files_written_rev. unfold files_written.
  rewrite Hlist, size_list_to_set.
  - by rewrite length_map, length_rev, length_map, length_seq.
  - rewrite <- map_rev, map_map.
    apply (NoDup_fmap_2_strong
             (fun i => Path.components (path_of env i))).
    + intros i j [_ Hi]%list_elem_of_In%in_rev%in_seq
                 [_ Hj]%list_elem_of_In%in_rev%in_seq Heq.
      unfold path_of in Heq. rewrite !components_stamp in Heq.
      assert (Hn : stamp_name (now env i) = stamp_name (now env j))
        by congruence.
      apply stamp_name_inj in Hn; [|apply Hok; lia|apply Hok; lia].
      destruct (lt_eq_lt_dec i j) as [[Hlt|]|Hlt]; [|done|].
      * by destruct (Hstamps i j).
      * by destruct (Hstamps j i).
    + apply NoDup_ListNoDup, NoDup_rev, NoDup_ListNoDup, NoDup_seq.
Qed.

End ReadFailure.

(** C3 (as amended).  When the k-th read fails, and no Ctrl+C arrives in
    the six steps that follow, the loop is left at once: the failure is
    printed, the handle is released and the script ends, with no other
    call in between (no second [cv2.VideoCapture], no further read).  By
    then [cv2.imwrite] was called k-1 times, once for each earlier clock
    reading, and every write that went through has its file in place.  The
    files on disk are those of the launch and those written; there are at
    most k-1 of the latter, and exactly k-1 when the clock readings
    fall in different seconds and no directory was in the way of a write:
    two saves within the same second share a path, and the later replaces
    the earlier.  [cap.release()] was called once. *)
Theorem read_failure_is_fatal (env : Env) (n k : nat) :
  let s := run env n in
  pc s = L24 ->
  S (n_reads (trace s)) = k ->
  read_result env (k - 1) = None ->
  (forall i, (n <= i < n + 6)%nat -> sigint env i = false) ->
  let s' := run env (n + 6) in
  pc s' = Halt Finished
  /\ trace s'
     = trace s ++ [Read None; Printed MSG_READ_FAILED; Release; DestroyAllWindows]
  /\ n_reads (trace s') = k
  /\ length (save_paths (trace s')) = (k - 1)%nat
  /\ save_paths (trace s') = map (path_of env) (seq 0 (k - 1))
  /\ (forall p, In p (save_paths (trace s')) -> writes env p = true ->
        exists f, FS.files (fs s') !! Path.components p = Some (Image JPEG f))
  /\ dom (FS.files (fs s'))
     = dom (FS.files (fs0 env)) ∪ files_written (trace s')
  /\ (dom (FS.files (fs0 env)) ## files_written (trace s') ->
      size (FS.files (fs s'))
      = (size (FS.files (fs0 env)) + size (files_written (trace s')))%nat)
  /\ (size (files_written (trace s')) <= k - 1)%nat
  /\ ((forall i, (i < k - 1)%nat ->
         valid (now env i) = true /\ writes env (path_of env i) = true) ->
      (forall i j, (i < j < k - 1)%nat ->
         stamp_of (now env i) <> stamp_of (now env j)) ->
      size (files_written (trace s')) = (k - 1)%nat)
  /\ n_opens (trace s') = 1%nat
  /\ n_release (trace s') = 1%nat
  /\ forall m, (n + 6 <= m)%nat -> run env m = s'.
Proof.
  intros s Hpc Hk Hr Hsig s'.
  unfold trace in Hk. rewrite n_reads_rev in Hk.
  assert (Hr' : read_result env (n_reads (log s)) = None).
  { rewrite <- Hr. f_equal. lia. }
  destruct (read_failure_run env n Hpc Hr' Hsig)
    as (Hpc' & Hcap & Hfs & Hlog & Hrel & Hop & Hset).
  fold s' in Hpc', Hcap, Hfs, Hlog. fold s in Hfs, Hlog, Hrel, Hop, Hset.
  destruct Hset as (_ & Hnr & _).
  assert (Htr : trace s' = trace s
    ++ [Read None; Printed MSG_READ_FAILED; Release; DestroyAllWindows]).
  { unfold trace. rewrite Hlog. cbn [rev]. by rewrite <- !app_assoc. }
  assert (Hlen : length (save_paths (trace s')) = (k - 1)%nat).
  { rewrite Htr, save_paths_app, app_nil_r. unfold trace.
    rewrite save_paths_rev, length_rev. lia. }
  split; [done|]. split; [done|].
  split. { rewrite Htr, n_reads_app. unfold trace. rewrite n_reads_rev. cbn. lia. }
  split; [done|].
  split. { rewrite <- Hlen. apply save_paths_chronological. }
  split. { intros p Hp Hw. by apply saved_files_exist. }
  split; [apply files_on_disk|].
  split; [apply files_count|].
  split. { rewrite <- Hlen. unfold trace. rewrite files_written_rev, save_paths_rev,
             length_rev. apply (files_written_le env), run_inv. }
  split. { intros Hok Hstamps. rewrite <- Hlen in Hok, Hstamps |- *.
           by apply files_written_distinct. }
  split. { rewrite Htr, n_opens_app. unfold trace. rewrite n_opens_rev. cbn. lia. }
  split. { rewrite Htr, n_release_app. unfold trace. rewrite n_release_rev. cbn. lia. }
  intros m Hm. by eapply run_halted.
Qed.

(** Three frames a minute apart, then the fourth read fails: three
    files. *)
Lemma read_failure_is_fatal_witness :
  let s := run env_three_frames 28 in
  let s' := run env_three_frames (28 + 6) in
  pc s' = Halt Finished
  /\ trace s'
     = trace s ++ [Read None; Printed MSG_READ_FAILED; Release; DestroyAllWindows]
  /\ n_reads (trace s') = 4%nat
  /\ length (save_paths (trace s')) = (4 - 1)%nat
  /\ size (files_written (trace s')) = (4 - 1)%nat
  /\ n_release (trace s') = 1%nat.
Proof.
  destruct (read_failure_is_fatal env_three_frames 28 4)
    as (Hpc & Htr & Hn & Hlen & _ & _ & _ & _ & _ & Hsize & _ & Hrel & _).
  - reflexivity.
  - reflexivity.
  - reflexivity.
  - intros i _. reflexivity.
  - split; [exact Hpc|]. split; [exact Htr|]. split; [exact Hn|].
    split; [exact Hlen|]. split; [|exact Hrel].
    apply Hsize.
    + intros i Hi. split; [|reflexivity].
      destruct i as [|[|[|i]]]; [reflexivity ..|lia].
    + intros i j Hij.
      destruct i as [|[|i]]; destruct j as [|[|[|j]]]; try lia; discriminate.
Defined.

(** C3 (as stated) fails: two frames are saved within the same second of
    the local clock (the clock was set back between the two saves) and the
    third read fails.  [cv2.imwrite] was called twice and both writes went
    through, and one file is on disk: the second save replaced the
    first. *)
Lemma same_second_leaves_one_file :
  let env := env_same_second_fails in
  let s := run env 21 in
  let s' := run env (21 + 6) in
  let p := "captured_images/20261103_100015.jpg"%string in
  pc s = L24
  /\ S (n_reads (trace s)) = 3%nat
  /\ read_result env (3 - 1) = None
  /\ (forall i, sigint env i = false)
  /\ pc s' = Halt Finished
  /\ trace s'
     = [ VideoCapture STREAM_URL true; Makedirs SAVE_DIR; Printed MSG_START;
         Read (Some a_frame); Now (same_second_clock 0);
         Imwrite p (Some a_frame) true; Printed (MSG_SAVED p); Sleep 60;
         Read (Some another_frame); Now (same_second_clock 1);
         Imwrite p (Some another_frame) true; Printed (MSG_SAVED p); Sleep 60;
         Read None; Printed MSG_READ_FAILED; Release; DestroyAllWindows ]
  /\ save_paths (trace s') = [p; p]
  /\ FS.files (fs s')
     = {[ ["captured_images"; "20261103_100015.jpg"]%string
          := Image JPEG another_frame ]}
  /\ size (FS.files (fs s')) = 1%nat.
Proof.
  cbv zeta.
  assert (Hfiles : FS.files (fs (run env_same_second_fails (21 + 6)))
    = {[ ["captured_images"; "20261103_100015.jpg"]%string
         := Image JPEG another_frame ]}) by (vm_compute; reflexivity).
  split; [vm_compute; reflexivity|]. split; [vm_compute; reflexivity|].
  split; [reflexivity|]. split; [done|].
  split; [vm_compute; reflexivity|]. split; [vm_compute; reflexivity|].
  split; [vm_compute; reflexivity|]. split; [exact Hfiles|].
  rewrite Hfiles. apply map_size_singleton.
Qed.

(** The same without touching the clock: in the hour that comes twice
    when summer time ends, the 61st frame is saved under the name of the
    first.  61 saves leave 60 files. *)
Lemma repeated_hour_leaves_sixty_files :
  let env := env_repeated_hour in
  let s' := run env (7 + 7 * 61 + 6) in
  pc s' = Halt Finished
  /\ stamp_of (now env 0) = stamp_of (now env 60)
  /\ n_reads (trace s') = 62%nat
  /\ length (save_paths (trace s')) = 61%nat
  /\ size (FS.files (fs s')) = 60%nat.
Proof.
  cbv zeta. split; [vm_compute; reflexivity|]. split; [reflexivity|].
  split; [vm_compute; reflexivity|]. split; vm_compute; reflexivity.
Qed.

Section Iteration.
Context (env : Env).

Lemma stamp_name_layout t :
  stamp_name t
  = pad 4 (year t) +:+ pad 2 (month t) +:+ pad 2 (day t) +:+ "_"
    +:+ pad 2 (hour t) +:+ pad 2 (minute t) +:+ pad 2 (second t) +:+ ".jpg".
Proof.
  unfold stamp_name. rewrite strftime_stamp, !append_assoc.
  rewrite append_cons. by do 3 f_equal.
Qed.

Lemma loop_head_vars n :
  pc (run env n) = L24 ->
  loop_vars (run env n) /\ settled (log (run env n)).
Proof.
  intros Hpc. pose proof (inv_pc _ _ (run_inv env n)) as Hat.
  unfold at_pc in Hat. rewrite Hpc in Hat. tauto.
Qed.

(** Whether a write goes through, read off the disk at any point of a
    run. *)
Lemma writes_run n t :
  writes env (Path.join SAVE_DIR (stamp_name t))
  = negb (FS.is_dir (fs (run env n)) [SAVE_DIR; stamp_name t]).
Proof.
  rewrite writes_stamp. f_equal. symmetry. apply is_dir_stamp.
  apply (inv_fs _ _ (run_inv env n)).
Qed.

Lemma iteration_run n f :
  let s := run env n in
  pc s = L24 ->
  read_result env (n_reads (log s)) = Some f ->
  (forall i, (n <= i < n + 7)%nat -> sigint env i = false) ->
  let t := now env (n_nows (log s)) in
  let path := Path.join SAVE_DIR (stamp_name t) in
  let w := writes env path in
  run env (n + 7)
  = mk_state L24 (stream_url s) true SAVE_DIR true (Some f)
      (stamp_name t) path
      (if w then FS.put_file [SAVE_DIR; stamp_name t] (Image JPEG f) (fs s)
       else fs s)
      (Sleep 60 :: Printed (MSG_SAVED path) :: Imwrite path (Some f) w
       :: Now t :: Read (Some f) :: log s).
Proof.
  intros s Hpc Hr Hsig t path w.
  destruct (loop_head_vars n Hpc) as ((Hcap & Hdir & Hd & _) & _).
  unfold w, path. rewrite (writes_run n t).
  rewrite run_add. by apply iteration_steps.
Qed.

End Iteration.



Section Messages.
Context (env : Env).

Lemma log_ok_sleep l d : log_ok env l -> In (Sleep d) l -> d = 60.
Proof.
  induction l as [|e l IH]; [done|]. intros [He Hl] [->|Hin]; auto.
Qed.

Lemma MSG_SAVED_head p : MSG_SAVED p = String "S" ("aved: " +:+ p).
Proof. reflexivity. Qed.

(** The message of line 33 is the newest event only at line 36. *)
Lemma saved_message_line s p l :
  at_pc env s -> log s = Printed (MSG_SAVED p) :: l -> pc s = L36.
Proof.
  unfold at_pc, loop_vars, final_message. rewrite MSG_SAVED_head.
  intros Hat Hlog. rewrite Hlog in Hat.
  destruct (pc s) as [| | | | | | | | | | | | | | | | | | | | |[| |[]]];
    try done; try (by destruct Hat as (Heq & _)).
  - destruct Hat as (_ & _ & e & l' & Heq & [->| ->]); done.
  - by destruct Hat as (_ & l' & Heq & _).
  - by destruct Hat as (_ & l' & Heq & _).
  - by destruct Hat as (_ & l' & Heq & _).
  - by destruct Hat as (_ & ? & l' & _ & Heq & _).
  - by destruct Hat as (_ & ? & ? & l' & _ & _ & Heq & _).
  - by destruct Hat as (_ & ? & ? & l' & _ & _ & _ & Heq & _).
  - by destruct Hat as (_ & ? & ? & l' & _ & _ & _ & Heq & _).
  - by destruct Hat as (_ & ? & l' & Heq & _).
  - destruct Hat as (_ & m & l' & Heq & [->| ->] & _); done.
  - by destruct Hat as (_ & m & l' & Heq & _).
  - by destruct Hat as (_ & m & l' & Heq & _).
  - by destruct Hat as (_ & Heq & _).
  - by destruct Hat as (? & l' & Heq & _).
Qed.

End Messages.



(** C6 (as amended).  Right after a message ["Saved: p"], [p] is
    [captured_images] joined with the name made from the clock reading of
    that iteration, and that name reads back as the second of the reading.
    The message itself does not tell that the file is there: line 33
    prints it whatever [cv2.imwrite] returned.  The write went through, and
    the file at [p] holds the frame of that iteration as a JPEG image,
    exactly when no directory sits at [p]; otherwise what is at [p] is what
    was there at launch. *)
Theorem saved_file_named_and_present
    (env : Env) (n : nat) (tr : list Event) (p : string) :
  trace (run env n) = tr ++ [Printed (MSG_SAVED p)] ->
  exists tr' f,
    let t := now env (n_nows tr') in
    let w := negb (FS.is_dir (fs0 env) (Path.components p)) in
    tr = tr' ++ [Read (Some f); Now t; Imwrite p (Some f) w]
    /\ p = Path.join SAVE_DIR (stamp_name t)
    /\ Path.components p = [SAVE_DIR; stamp_name t]
    /\ (valid t = true ->
        parse_stamp (stamp_name t) = Some (stamp_of t, ".jpg"%string))
    /\ w = negb (FS.is_dir (fs (run env n)) (Path.components p))
    /\ (w = true ->
        FS.files (fs (run env n)) !! Path.components p = Some (Image JPEG f))
    /\ (w = false ->
        FS.files (fs (run env n)) !! Path.components p
        = FS.files (fs0 env) !! Path.components p).
Proof.
  intros Htr. set (s := run env n) in *.
  assert (Hlog : log s = Printed (MSG_SAVED p) :: rev tr).
  { rewrite <- (rev_involutive (log s)). fold (trace s). rewrite Htr.
    by rewrite rev_app_distr. }
  pose proof (run_inv env n) as [Hat Hok _ _ _ _ Hfs _].
  fold s in Hat, Hok, Hfs.
  pose proof (saved_message_line env s p _ Hat Hlog) as Hpc.
  unfold at_pc in Hat. rewrite Hpc in Hat.
  destruct Hat as (_ & t & f & l' & _ & _ & Hp & Hlog' & Hfile & _).
  rewrite Hlog' in Hlog. injection Hlog as Hmsg Hrev.
  change (filepath s = p) in Hmsg. rewrite Hmsg in *.
  rewrite Hlog' in Hok. cbn [log_ok] in Hok.
  destruct Hok as (_ & _ & Ht & _). cbn [n_nows] in Ht.
  exists (rev l'), f. cbn zeta. rewrite n_nows_rev, <- Ht.
  fold (writes env p).
  split.
  { rewrite <- (rev_involutive tr), <- Hrev. cbn [rev].
    by rewrite <- !app_assoc. }
  split; [done|]. rewrite Hp, components_stamp.
  split; [done|]. split.
  { intros Hv. unfold stamp_name. by apply parse_stamp_strftime. }
  split; [apply (writes_run env n)|].
  rewrite <- Hp. split; [done|]. intros Hw.
  destruct Hfs as [_ Hfs].
  destruct (Hfs [SAVE_DIR; stamp_name t])
    as [Heq|(path & g & Hin & Hc & _)]; [done|].
  destruct (log_ok_imwrite env _ _ _ _ (inv_log _ _ (run_inv env n)) Hin)
    as [Hb _].
  unfold writes in Hb, Hw. rewrite <- Hc in Hb.
  rewrite Hp, components_stamp in Hw. by rewrite Hw in Hb.
Qed.

Lemma saved_file_named_and_present_witness :
  exists tr' f,
    let t := now env_three_frames (n_nows tr') in
    let p := "captured_images/20261103_100015.jpg"%string in
    removelast (trace (run env_three_frames 13))
    = tr' ++ [Read (Some f); Now t; Imwrite p (Some f) true]
    /\ p = Path.join SAVE_DIR (stamp_name t)
    /\ FS.files (fs (run env_three_frames 13)) !! Path.components p
       = Some (Image JPEG f).
Proof.
  destruct (saved_file_named_and_present env_three_frames 13
              (removelast (trace (run env_three_frames 13)))
              "captured_images/20261103_100015.jpg")
    as (tr' & f & Htr & Hp & _ & _ & _ & Hfile & _).
  - vm_compute. reflexivity.
  - exists tr', f. split; [exact Htr|]. split; [exact Hp|].
    apply Hfile. reflexivity.
Defined.

(** C6 (as stated) fails: at launch a directory sits at
    [captured_images/20261103_100015.jpg].  The first frame is read, the
    write to that path fails, [cv2.imwrite] returns [False], and line 33
    prints the message all the same: after it there is no file at the
    path, and the disk is as it was at launch. *)
Lemma saved_message_without_file :
  let env := env_dir_in_the_way in
  let s := run env 13 in
  let p := "captured_images/20261103_100015.jpg"%string in
  trace s
  = [ VideoCapture STREAM_URL true; Makedirs SAVE_DIR; Printed MSG_START;
      Read (Some a_frame); Now (minute_clock 0);
      Imwrite p (Some a_frame) false; Printed (MSG_SAVED p) ]
  /\ FS.is_dir (fs0 env) (Path.components p) = true
  /\ FS.files (fs s) !! Path.components p = None
  /\ fs s = fs0 env.
Proof.
  cbv zeta. split; [vm_compute; reflexivity|]. split; [vm_compute; reflexivity|].
  split; vm_compute; reflexivity.
Qed.

Section Cancellation.
Context (env : Env).

(** Nothing on disk is half written. *)
Lemma files_whole n p :
  FS.files (fs (run env n)) !! p = FS.files (fs0 env) !! p
  \/ exists path f,
       In (Imwrite path (Some f) true) (trace (run env n))
       /\ p = Path.components path
       /\ FS.files (fs (run env n)) !! p = Some (Image JPEG f).
Proof.
  destruct (inv_fs _ _ (run_inv env n)) as [_ H].
  destruct (H p) as [?|(path & f & Hin & ? & ?)]; [by left|].
  right. exists path, f. split; [|done]. unfold trace. by apply in_rev in Hin.
Qed.

End Cancellation.

(** C7.  A Ctrl+C raised at any line of the loop, the sleep included, is
    followed by the stop message, the release of the handle and the end of
    the script, and by nothing else: the file system is left as it was
    when the signal came.  Every [cv2.imwrite] of the run had returned by
    then, having written its whole file, or nothing at all where a
    directory was in its way, so every file is either one from before the
    launch or a whole image. *)
Theorem cancellation_is_clean (env : Env) (n : nat) :
  let s := run env n in
  in_try (pc s) = true ->
  sigint env n = true ->
  (forall i, (n < i < n + 4)%nat -> sigint env i = false) ->
  let s' := run env (n + 4) in
  pc s' = Halt Finished
  /\ trace s'
     = trace s ++ [Sigint (pc s); Printed MSG_STOPPED; Release; DestroyAllWindows]
  /\ n_release (trace s') = 1%nat
  /\ cap s' = false
  /\ fs s' = fs s
  /\ (forall path o b, In (Imwrite path o b) (trace s') ->
        b = negb (FS.is_dir (fs0 env) (Path.components path))
        /\ exists f, o = Some f)
  /\ (forall p,
        FS.files (fs s') !! p = FS.files (fs0 env) !! p
        \/ exists path f,
             In (Imwrite path (Some f) true) (trace s')
             /\ p = Path.components path
             /\ FS.files (fs s') !! p = Some (Image JPEG f)).
Proof.
  intros s Ht Hi Hsig s'.
  destruct (cancel_run env n Ht Hi Hsig) as (Hpc & Hcap & Hfs & Hlog & Hrel).
  fold s' in Hpc, Hcap, Hfs, Hlog. fold s in Hfs, Hlog, Hrel.
  assert (Htr : trace s' = trace s
    ++ [Sigint (pc s); Printed MSG_STOPPED; Release; DestroyAllWindows]).
  { unfold trace. rewrite Hlog. cbn [rev]. by rewrite <- !app_assoc. }
  split; [done|]. split; [done|].
  split. { rewrite Htr, n_release_app. unfold trace. rewrite n_release_rev, Hrel. done. }
  split; [done|]. split; [done|]. split.
  - intros path o b Hin. apply in_rev in Hin.
    destruct (log_ok_imwrite env _ _ _ _ (inv_log _ _ (run_inv env (n + 4))) Hin)
      as (Hb & f & t & Ho & _).
    split; [exact Hb|by exists f].
  - intros p. apply files_whole.
Qed.

(** Ctrl+C during the first sleep. *)
Lemma cancellation_is_clean_witness :
  let s := run env_cancel_in_sleep 13 in
  let s' := run env_cancel_in_sleep (13 + 4) in
  pc s = L36
  /\ pc s' = Halt Finished
  /\ trace s'
     = trace s ++ [Sigint L36; Printed MSG_STOPPED; Release; DestroyAllWindows]
  /\ fs s' = fs s.
Proof.
  assert (H : in_try (pc (run env_cancel_in_sleep 13)) = true) by reflexivity.
  destruct (cancellation_is_clean env_cancel_in_sleep 13 H)
    as (Hpc & Htr & _ & _ & Hfs & _).
  - reflexivity.
  - intros i Hi. cbn. apply Nat.eqb_neq. lia.
  - split; [vm_compute; reflexivity|].
    split; [exact Hpc|]. split; [exact Htr | exact Hfs].
Defined.

Section Directory.
Context (env : Env).

Lemma makedirs_general name (fs : FS.t) :
  (forall k, FS.files fs !! take k (Path.components name) = None) ->
  exists fs',
    FS.makedirs name true fs = FS.Made fs'
    /\ FS.files fs' = FS.files fs
    /\ FS.dirs fs ⊆ FS.dirs fs'
    /\ FS.is_dir fs' (Path.components name) = true
    /\ (FS.is_dir fs (Path.components name) = true -> fs' = fs)
    /\ (FS.is_dir fs (Path.components name) = false ->
        forall k, FS.is_dir fs' (take k (Path.components name)) = true).
Proof.
  intros Hfree. unfold FS.makedirs.
  set (p := Path.components name) in *.
  destruct (FS.is_dir fs p) eqn:Hd.
  - exists fs. by repeat split.
  - destruct (mkdir_p_ok p [] fs Hfree) as [fs' Hmk]. rewrite Hmk.
    destruct (mkdir_p_spec p [] fs fs' Hmk) as (Hfiles & Hsub & Hpre).
    cbn [app] in Hpre.
    assert (Hall : forall k, FS.is_dir fs' (take k p) = true).
    { intros k. destruct (decide (k = 0)%nat) as [->|Hk]; [by rewrite take_0|].
      destruct (le_lt_dec k (length p)) as [Hle|Hgt].
      - apply Hpre. lia.
      - rewrite take_ge by lia. rewrite <- (firstn_all p). apply Hpre.
        split; [|done]. destruct p; [done|cbn; lia]. }
    exists fs'. repeat split; try done.
    rewrite <- (firstn_all p). apply Hall.
Qed.

End Directory.

(** C8.  Whenever line 32 is about to save, the directory
    [captured_images] exists.  The launch makes it so: when the stream
    opens and [captured_images] is a directory already, or nothing has that
    name, the script reaches the loop with the directory in place, with no
    file touched and nothing saved yet; an existing directory leaves the
    file system as it was.  In general
    [os.makedirs(name, exist_ok=True)] succeeds when no prefix of the path
    is a file, changes nothing when the directory exists, and otherwise
    creates the directory together with every missing parent. *)
Theorem output_directory_ensured (env : Env) :
  (forall n, pc (run env n) = L32 ->
     FS.is_dir (fs (run env n)) [SAVE_DIR] = true)
  /\ (stream_opens env = true ->
      (forall i, (i < 7)%nat -> sigint env i = false) ->
      FS.is_dir (fs0 env) [SAVE_DIR] = true
      \/ FS.files (fs0 env) !! [SAVE_DIR] = None ->
      let s := run env 7 in
      pc s = L24
      /\ trace s
         = [VideoCapture STREAM_URL true; Makedirs SAVE_DIR; Printed MSG_START]
      /\ FS.is_dir (fs s) [SAVE_DIR] = true
      /\ FS.files (fs s) = FS.files (fs0 env)
      /\ (FS.is_dir (fs0 env) [SAVE_DIR] = true -> fs s = fs0 env)
      /\ (FS.is_dir (fs0 env) [SAVE_DIR] = false ->
          fs s = FS.add_dir [SAVE_DIR] (fs0 env)))
  /\ (forall name (fs : FS.t),
        (forall k, FS.files fs !! take k (Path.components name) = None) ->
        exists fs',
          FS.makedirs name true fs = FS.Made fs'
          /\ FS.files fs' = FS.files fs
          /\ FS.dirs fs ⊆ FS.dirs fs'
          /\ FS.is_dir fs' (Path.components name) = true
          /\ (FS.is_dir fs (Path.components name) = true -> fs' = fs)
          /\ (FS.is_dir fs (Path.components name) = false ->
              forall k, FS.is_dir fs' (take k (Path.components name)) = true)).
Proof.
  split; [|split].
  - intros n Hpc. pose proof (inv_pc _ _ (run_inv env n)) as Hat.
    unfold at_pc, loop_vars in Hat. rewrite Hpc in Hat. tauto.
  - intros Ho Hsig Hdir s. unfold s.
    rewrite (startup_steps env Ho Hdir Hsig). cbn [pc fs].
    split; [done|]. split; [done|].
    destruct (FS.is_dir (fs0 env) [SAVE_DIR]) eqn:Hd.
    + by repeat split.
    + repeat split; try done. apply is_dir_add_dir.
  - apply makedirs_general.
Qed.

(** A launch into an empty working directory. *)
Lemma output_directory_ensured_witness :
  pc (run env_three_frames 7) = L24
  /\ fs (run env_three_frames 7) = FS.add_dir [SAVE_DIR] empty_fs
  /\ pc (run env_three_frames 11) = L32
  /\ FS.is_dir (fs (run env_three_frames 11)) [SAVE_DIR] = true.
Proof.
  destruct (output_directory_ensured env_three_frames) as (H32 & Hlaunch & _).
  destruct Hlaunch as (Hpc & _ & _ & _ & _ & Hnew);
    [reflexivity | intros i _; reflexivity | right; reflexivity |].
  assert (Hpc32 : pc (run env_three_frames 11) = L32) by reflexivity.
  split; [exact Hpc|]. split; [apply Hnew; reflexivity|].
  split; [exact Hpc32 | exact (H32 11%nat Hpc32)].
Defined.

(** C9 (as amended).  Two clock readings more than one second apart give
    different names, and different paths.  In a run whose successive clock
    readings are each more than a second later than the one before, the
    i-th file saved is named after the i-th reading, the seconds the names
    encode are strictly increasing in the order of saving, and no path is
    used twice. *)
Theorem names_distinct_and_increasing :
  (forall t1 t2,
     valid t1 = true -> valid t2 = true ->
     1000000 < Z.abs (to_micros t1 - to_micros t2) ->
     stamp_name t1 <> stamp_name t2
     /\ Path.join SAVE_DIR (stamp_name t1) <> Path.join SAVE_DIR (stamp_name t2))
  /\ (forall env n,
        let tr := trace (run env n) in
        let k := length (save_paths tr) in
        (forall i, (i < k)%nat -> valid (now env i) = true) ->
        (forall i, (S i < k)%nat ->
           to_micros (now env i) + 1000000 < to_micros (now env (S i))) ->
        save_paths tr = map (path_of env) (seq 0 k)
        /\ saved_seconds tr = map (fun i => to_seconds (now env i)) (seq 0 k)
        /\ StronglySorted Z.lt (saved_seconds tr)
        /\ NoDup (save_paths tr)).
Proof.
  assert (Hname : forall t1 t2,
    valid t1 = true -> valid t2 = true ->
    1000000 < Z.abs (to_micros t1 - to_micros t2) ->
    stamp_name t1 <> stamp_name t2).
  { intros t1 t2 H1 H2 Hfar Heq.
    pose proof (stamp_name_seconds t1 t2 H1 H2 Heq).
    destruct (to_micros_split t1 H1), (to_micros_split t2 H2). lia. }
  assert (Hjoin : forall t1 t2,
    Path.join SAVE_DIR (stamp_name t1) = Path.join SAVE_DIR (stamp_name t2) ->
    stamp_name t1 = stamp_name t2).
  { intros t1 t2. rewrite !join_stamp. intros H%append_inv_head.
    congruence. }
  split.
  - intros t1 t2 H1 H2 Hfar. split; [by apply Hname|].
    intros H%Hjoin. by apply (Hname t1 t2).
  - intros env n tr k Hvalid Hclock.
    assert (Hsec : forall i j, (i < j)%nat -> (j < k)%nat ->
      to_seconds (now env i) < to_seconds (now env j)).
    { apply (increasing_steps (fun i => to_seconds (now env i))).
      intros i Hi. pose proof (Hclock i Hi).
      destruct (to_micros_split (now env i)); [apply Hvalid; lia|].
      destruct (to_micros_split (now env (S i))); [apply Hvalid; lia|]. lia. }
    assert (Hpaths : save_paths tr = map (path_of env) (seq 0 k))
      by apply save_paths_chronological.
    assert (Hsecs : saved_seconds tr
      = map (fun i => to_seconds (now env i)) (seq 0 k)).
    { unfold saved_seconds. rewrite Hpaths. apply seconds_of_paths.
      intros i [_ Hi]%in_seq. apply Hvalid. lia. }
    split; [done|]. split; [done|]. split.
    + rewrite Hsecs. apply sorted_seq. intros i j Hij Hj. apply Hsec; lia.
    + rewrite Hpaths. apply (NoDup_fmap_2_strong (path_of env)); [|apply NoDup_seq].
      intros i j [_ Hi]%elem_of_seq [_ Hj]%elem_of_seq Heq.
      apply Hjoin in Heq.
      apply stamp_name_seconds in Heq; [|apply Hvalid; lia|apply Hvalid; lia].
      destruct (lt_eq_lt_dec i j) as [[Hlt|]|Hlt]; [|done|].
      * pose proof (Hsec i j Hlt). lia.
      * pose proof (Hsec j i Hlt). lia.
Qed.

(** Three frames saved a minute apart. *)
Lemma names_distinct_and_increasing_witness :
  let tr := trace (run env_three_frames 34) in
  stamp_name (minute_clock 0) <> stamp_name (minute_clock 1)
  /\ length (save_paths tr) = 3%nat
  /\ StronglySorted Z.lt (saved_seconds tr)
  /\ NoDup (save_paths tr).
Proof.
  destruct names_distinct_and_increasing as [Hdistinct Hrun].
  split; [|split; [vm_compute; reflexivity|]].
  - apply (Hdistinct (minute_clock 0) (minute_clock 1)).
    + reflexivity.
    + reflexivity.
    + vm_compute. reflexivity.
  - apply (Hrun env_three_frames 34%nat).
    + intros i _. unfold valid. cbn. pose proof (Z.mod_pos_bound (Z.of_nat i) 60).
      repeat (apply andb_true_intro; split); try reflexivity;
        try apply Z.leb_le; try apply Z.ltb_lt; lia.
    + change (length (save_paths (trace (run env_three_frames 34)))) with 3%nat.
      intros i Hi. destruct i as [|[|i]]; [vm_compute; reflexivity ..|lia].
Defined.

(** C9 (as stated) fails: on the night summer time ends the local clock
    reads 02:59:30 and, a minute later, 02:00:30.  Both frames are saved,
    the readings are almost an hour apart, and the second name encodes an
    earlier second than the first. *)
Lemma dst_names_not_increasing :
  let tr := trace (run env_dst 27) in
  pc (run env_dst 27) = Halt Finished
  /\ valid (dst_clock 0) = true /\ valid (dst_clock 1) = true
  /\ 1000000 < Z.abs (to_micros (dst_clock 0) - to_micros (dst_clock 1))
  /\ save_paths tr = [ "captured_images/20261025_025930.jpg"%string;
                       "captured_images/20261025_020030.jpg"%string ]
  /\ saved_seconds tr = [63928580370; 63928576830]
  /\ ~ StronglySorted Z.lt (saved_seconds tr).
Proof.
  assert (Hs : saved_seconds (trace (run env_dst 27))
               = [63928580370; 63928576830]) by (vm_compute; reflexivity).
  cbv zeta. rewrite Hs.
  split; [vm_compute; reflexivity|]. split; [reflexivity|].
  split; [reflexivity|]. split; [vm_compute; reflexivity|].
  split; [vm_compute; reflexivity|]. split; [reflexivity|].
  intros [_ Hall]%StronglySorted_inv.
  apply Forall_inv in Hall. lia.
Qed.

Section Counting.
Context (env : Env).


End Counting.




(** * Further properties *)

Section Stopping.
Context (env : Env).

Lemma trace_of_log s (l : list Event) (es : list Event) :
  log s = rev es ++ l -> trace s = rev l ++ es.
Proof.
  unfold trace. intros ->. by rewrite rev_app_distr, rev_involutive.
Qed.

Lemma opened_when_past_launch n :
  stream_opens env = false -> closed_line (run env n).
Proof. intros Hc. by destruct (closed_run env Hc n). Qed.

End Stopping.

(** X1.  A run stops in one of four ways and no other.  It ends past the
    last line, after one of the two final messages, the release and
    [destroyAllWindows]; or at [exit()], with the stream not opened and
    the file system untouched; or with a [KeyboardInterrupt] raised
    outside [try]; or with the error of [os.makedirs], which happens only
    when [captured_images] is a file, before anything was printed.
    [cv2.imwrite] never raises.  The exit status is 0 in the first two
    cases only. *)
Theorem stops_in_four_ways (env : Env) (n : nat) (o : Outcome) :
  pc (run env n) = Halt o ->
  stopped_as env (run env n) o
  /\ (exit_status o = 0 <-> o = Finished \/ o = SystemExit None).
Proof.
  intros Hpc. set (s := run env n) in *.
  pose proof (inv_pc _ _ (run_inv env n)) as Hat. fold s in Hat.
  unfold at_pc in Hat. rewrite Hpc in Hat.
  assert (Hopen : stream_opens env = false -> closed_line s)
    by apply opened_when_past_launch.
  unfold closed_line in Hopen. rewrite Hpc in Hopen.
  split.
  - destruct o as [|c|[| |]]; cbn [stopped_as].
    + destruct Hat as (Hcap & m & l' & Hlog & Hm & Hrel).
      split; [by destruct (stream_opens env); [|destruct Hopen]|].
      split; [done|]. exists (rev l'), m. split; [|split; [done|]].
      * by apply (trace_of_log s l' [Printed m; Release; DestroyAllWindows]).
      * by rewrite n_release_rev.
    + destruct Hat as (-> & Hlog & Hfs & Ho).
      repeat split; try done.
      by apply (trace_of_log s []
                  [VideoCapture STREAM_URL false; Printed MSG_OPEN_FAILED; Exit]).
    + destruct Hat as (l & l' & Hlog & Hl). exists (rev l'), l.
      split; [|done]. by apply (trace_of_log s l' [Sigint l]).
    + destruct Hat as (Hlog & Hfs & Hd & Hf).
      split; [by destruct (stream_opens env); [|destruct Hopen]|].
      repeat split; try done.
      by apply (trace_of_log s [] [VideoCapture STREAM_URL true]).
    + done.
  - destruct o as [|[c|]|[| |]]; cbn [exit_status]; split;
      try (intros [?|?]; done); try done; auto.
    by destruct Hat as (Hc & _).
Qed.

(** A run that ends on a failed read. *)
Lemma stops_in_four_ways_witness :
  stopped_as env_three_frames (run env_three_frames 34) Finished
  /\ (exit_status Finished = 0 <-> Finished = Finished \/ Finished = SystemExit None).
Proof.
  apply (stops_in_four_ways env_three_frames 34 Finished).
  vm_compute. reflexivity.
Defined.

Section Escapes.
Context (env : Env).

Lemma step_escape i s :
  (forall o, pc s <> Halt o) -> in_try (pc s) = false ->
  sigint env i = true ->
  step env i s
  = goto (Halt (Uncaught KeyboardInterrupt)) (emit (Sigint (pc s)) s).
Proof.
  intros Hrun Ht Hi. unfold step, interrupt. rewrite Hi, Ht.
  destruct (pc s) eqn:Hpc; try done. by destruct (Hrun o).
Qed.

Lemma unreleased_outside_loop n :
  let s := run env n in
  (forall o, pc s <> Halt o) -> pc s <> L42 -> n_release (log s) = O.
Proof.
  intros s Hrun H42.
  pose proof (inv_pc _ _ (run_inv env n)) as Hat. fold s in Hat.
  unfold at_pc, loop_vars in Hat.
  destruct (pc s) eqn:Hpc; try done;
    try (destruct Hat as (-> & _); reflexivity); try tauto.
  - destruct Hat as (_ & l & l' & -> & _ & Hr). done.
  - destruct Hat as (_ & m & l' & -> & _ & Hr). done.
  - by destruct (Hrun o).
Qed.

End Escapes.

(** X2.  A Ctrl+C that arrives at a line outside [try] (lines 7 to 22, and
    39 to 42) is not caught: the script stops there with the
    [KeyboardInterrupt], without running that line, and the file system is
    as it was.  Unless the line is the last one, [cap.release()] was not
    called and never will be; in particular a second Ctrl+C during the
    handler of line 39 or before line 41 leaves an open stream behind. *)
Theorem interrupt_outside_try_escapes (env : Env) (n : nat) :
  let s := run env n in
  (forall o, pc s <> Halt o) ->
  in_try (pc s) = false ->
  sigint env n = true ->
  let s' := run env (S n) in
  pc s' = Halt (Uncaught KeyboardInterrupt)
  /\ exit_status (Uncaught KeyboardInterrupt) = 130
  /\ trace s' = trace s ++ [Sigint (pc s)]
  /\ fs s' = fs s /\ cap s' = cap s
  /\ (forall m, (S n <= m)%nat -> run env m = s')
  /\ (pc s <> L42 -> n_release (trace s') = O)
  /\ (pc s = L39 \/ pc s = L41 -> cap s' = true).
Proof.
  intros s Hrun Ht Hi s'.
  assert (Hs' : s' = goto (Halt (Uncaught KeyboardInterrupt))
                          (emit (Sigint (pc s)) s)).
  { unfold s'. rewrite run_S. by apply step_escape. }
  assert (Hpc' : pc s' = Halt (Uncaught KeyboardInterrupt)) by by rewrite Hs'.
  split; [done|]. split; [done|].
  split; [by rewrite Hs'|]. split; [by rewrite Hs'|]. split; [by rewrite Hs'|].
  split; [|split].
  - intros m Hm. by eapply run_halted.
  - intros H42. unfold trace. rewrite n_release_rev, Hs'. cbn.
    by apply unreleased_outside_loop.
  - intros Hline. rewrite Hs'. cbn [cap goto emit].
    pose proof (inv_pc _ _ (run_inv env n)) as Hat. fold s in Hat.
    unfold at_pc in Hat. destruct Hline as [Hl|Hl]; rewrite Hl in Hat; tauto.
Qed.

(** Ctrl+C right after the stream was opened. *)
Lemma interrupt_outside_try_escapes_witness :
  let s' := run env_cancel_at_launch 3 in
  pc s' = Halt (Uncaught KeyboardInterrupt)
  /\ trace s' = [VideoCapture STREAM_URL true; Sigint L12]
  /\ n_release (trace s') = O.
Proof.
  assert (Hrun : forall o, pc (run env_cancel_at_launch 2) <> Halt o) by done.
  destruct (interrupt_outside_try_escapes env_cancel_at_launch 2 Hrun)
    as (Hpc & _ & Htr & _ & _ & _ & Hrel & _); [reflexivity | reflexivity |].
  split; [exact Hpc|]. split; [exact Htr|]. apply Hrel. done.
Defined.

Section MakedirsFailure.
Context (env : Env).

Ltac launch_step Hsig :=
  rewrite run_from_S; rewrite step_exec by (apply Hsig; lia);
  unfold exec; norm_state.

Lemma makedirs_failure_steps c :
  stream_opens env = true ->
  FS.is_dir (fs0 env) [SAVE_DIR] = false ->
  FS.files (fs0 env) !! [SAVE_DIR] = Some c ->
  (forall i, (i < 5)%nat -> sigint env i = false) ->
  run env 5
  = mk_state (Halt (Uncaught OSError)) STREAM_URL true SAVE_DIR false None
      "" "" (fs0 env) [VideoCapture STREAM_URL true].
Proof.
  intros Ho Hd Hf Hsig. unfold run, init.
  launch_step Hsig. launch_step Hsig. rewrite Ho.
  launch_step Hsig. launch_step Hsig. launch_step Hsig.
  rewrite makedirs_save_dir, Hd, Hf. reflexivity.
Qed.

End MakedirsFailure.

(** X3.  When [captured_images] exists at launch and is not a directory,
    line 18 raises although [exist_ok=True] is given, and nothing catches
    it: the script stops with status 1 after opening the stream, before
    the launch message, without reading a frame, without changing the file
    system and without releasing the stream. *)
Theorem makedirs_failure_aborts (env : Env) (c : content) :
  stream_opens env = true ->
  FS.is_dir (fs0 env) [SAVE_DIR] = false ->
  FS.files (fs0 env) !! [SAVE_DIR] = Some c ->
  (forall i, (i < 5)%nat -> sigint env i = false) ->
  let s := run env 5 in
  pc s = Halt (Uncaught OSError)
  /\ exit_status (Uncaught OSError) = 1
  /\ trace s = [VideoCapture STREAM_URL true]
  /\ fs s = fs0 env /\ cap s = true
  /\ forall m, (5 <= m)%nat -> run env m = s.
Proof.
  intros Ho Hd Hf Hsig s.
  pose proof (makedirs_failure_steps env c Ho Hd Hf Hsig) as Hrun.
  fold s in Hrun. rewrite Hrun. repeat split.
  intros m Hm. rewrite <- Hrun. eapply run_halted; [|done].
  fold s. by rewrite Hrun.
Qed.

Lemma makedirs_failure_aborts_witness :
  let s := run env_dir_is_file 5 in
  pc s = Halt (Uncaught OSError)
  /\ trace s = [VideoCapture STREAM_URL true]
  /\ fs s = fs0 env_dir_is_file /\ cap s = true.
Proof.
  destruct (makedirs_failure_aborts env_dir_is_file (Blob []))
    as (Hpc & _ & Htr & Hfs & Hcap & _).
  - reflexivity.
  - vm_compute. reflexivity.
  - vm_compute. reflexivity.
  - intros i _. reflexivity.
  - split; [exact Hpc|]. split; [exact Htr|]. split; [exact Hfs | exact Hcap].
Defined.

Section WholeRuns.
Context (env : Env).

Lemma n_reads_iterations k :
  n_reads (flat_map (iteration_events env) (seq 0 k)) = k.
Proof.
  induction k as [|k IH]; [done|].
  rewrite seq_S, flat_map_app, n_reads_app, IH. cbn. lia.
Qed.

Lemma n_nows_iterations k :
  n_nows (flat_map (iteration_events env) (seq 0 k)) = k.
Proof.
  induction k as [|k IH]; [done|].
  rewrite seq_S, flat_map_app, n_nows_app, IH. cbn. lia.
Qed.

Lemma save_paths_iterations k :
  save_paths (flat_map (iteration_events env) (seq 0 k))
  = map (path_of env) (seq 0 k).
Proof.
  induction k as [|k IH]; [done|].
  rewrite seq_S, flat_map_app, save_paths_app, IH, map_app. cbn.
  done.
Qed.

(** The state at the head of the loop after [k] whole iterations. *)
Lemma iterations_run k :
  stream_opens env = true ->
  (FS.is_dir (fs0 env) [SAVE_DIR] = true
   \/ FS.files (fs0 env) !! [SAVE_DIR] = None) ->
  (forall i, (i < 7 + 7 * k)%nat -> sigint env i = false) ->
  (forall i, (i < k)%nat -> is_Some (read_result env i)) ->
  let s := run env (7 + 7 * k) in
  pc s = L24
  /\ trace s = launch_events ++ flat_map (iteration_events env) (seq 0 k)
  /\ fs s = files_after env k.
Proof.
  intros Ho Hdir. induction k as [|k IH]; intros Hsig Hreads s.
  - unfold s. replace (7 + 7 * 0)%nat with 7%nat by lia.
    rewrite (startup_steps env Ho Hdir) by (intros; apply Hsig; lia).
    repeat split.
  - destruct IH as (Hpc & Htr & Hfs).
    { intros i Hi. apply Hsig. lia. }
    { intros i Hi. apply Hreads. lia. }
    set (s0 := run env (7 + 7 * k)) in *.
    assert (Hnr : n_reads (log s0) = k).
    { rewrite <- n_reads_rev. fold (trace s0). rewrite Htr, n_reads_app.
      by rewrite n_reads_iterations. }
    assert (Hnn : n_nows (log s0) = k).
    { rewrite <- n_nows_rev. fold (trace s0). rewrite Htr, n_nows_app.
      by rewrite n_nows_iterations. }
    destruct (Hreads k) as [f Hf]; [lia|].
    assert (Hrun : s = run env ((7 + 7 * k) + 7))
      by (unfold s; f_equal; lia).
    rewrite Hrun, (iteration_run env (7 + 7 * k) f Hpc).
    + fold s0. rewrite Hnn. cbn [pc fs]. split; [done|]. split.
      * unfold trace. cbn [log rev]. fold (trace s0). rewrite Htr.
        rewrite seq_S, flat_map_app, <- !app_assoc. cbn [flat_map app Nat.add].
        unfold iteration_events, path_of. by rewrite Hf.
      * cbn [files_after]. by rewrite Hf, Hfs.
    + fold s0. by rewrite Hnr.
    + intros i Hi. apply Hsig. lia.
Qed.

End WholeRuns.

(** X4.  A launch with the stream open, followed by [k] reads that all
    deliver a frame, is one fixed sequence: the three events of the launch,
    then for each iteration its read, clock reading, write, message and
    sleep, and nothing else.  After it the script is at the head of the
    loop again, the i-th save went to the path named after the i-th clock
    reading, and the file system holds the launch directory and, for each
    path no directory sits at, the frame written there last. *)
Theorem k_iterations_in_order (env : Env) (k : nat) :
  stream_opens env = true ->
  (FS.is_dir (fs0 env) [SAVE_DIR] = true
   \/ FS.files (fs0 env) !! [SAVE_DIR] = None) ->
  (forall i, (i < 7 + 7 * k)%nat -> sigint env i = false) ->
  (forall i, (i < k)%nat -> is_Some (read_result env i)) ->
  let s := run env (7 + 7 * k) in
  pc s = L24
  /\ trace s = launch_events ++ flat_map (iteration_events env) (seq 0 k)
  /\ save_paths (trace s) = map (path_of env) (seq 0 k)
  /\ n_reads (trace s) = k
  /\ fs s = files_after env k.
Proof.
  intros Ho Hdir Hsig Hreads s.
  destruct (iterations_run env k Ho Hdir Hsig Hreads) as (Hpc & Htr & Hfs).
  fold s in Hpc, Htr, Hfs.
  split; [done|]. split; [done|]. rewrite Htr, save_paths_app, n_reads_app.
  rewrite save_paths_iterations, n_reads_iterations. by repeat split.
Qed.

Lemma k_iterations_in_order_witness :
  let s := run env_endless (7 + 7 * 2) in
  pc s = L24
  /\ trace s = launch_events ++ iteration_events env_endless 0
               ++ iteration_events env_endless 1
  /\ n_reads (trace s) = 2%nat.
Proof.
  destruct (k_iterations_in_order env_endless 2) as (Hpc & Htr & _ & Hn & _).
  - reflexivity.
  - right. reflexivity.
  - intros i _. reflexivity.
  - intros i _. by eexists.
  - split; [exact Hpc|]. split; [|exact Hn].
    rewrite Htr. cbn [seq flat_map]. by rewrite app_nil_r.
Defined.



Section Footprint.
Context (env : Env).

(** Every write in a log took its name from a clock reading and its
    content from a read of the stream. *)
Lemma log_ok_imwrite_origin l p o b :
  log_ok env l -> In (Imwrite p o b) l ->
  exists i j f, p = path_of env i /\ o = Some f /\ b = writes env p
                /\ read_result env j = Some f.
Proof.
  induction l as [|e l IH]; [done|]. intros [He Hl] [->|Hin]; [|by apply IH].
  destruct He as (t & f & l'' & -> & -> & -> & ->).
  destruct Hl as (Ht & Hr & _). cbn in Ht, Hr.
  exists (n_nows l''), (n_reads l''), f. unfold path_of. by rewrite <- Ht.
Qed.

End Footprint.

(** X6.  All the script ever changes on disk lies in [captured_images]:
    no directory is removed and at most [captured_images] is added; no
    file is removed; and a file that differs from what was there at launch
    is [captured_images/<stamp>.jpg] for the stamp of one of the clock
    readings, holding as a JPEG image a frame that was read from the stream
    and written by line 32. *)
Theorem disk_footprint (env : Env) (n : nat) :
  let s := run env n in
  (FS.dirs (fs s) = FS.dirs (fs0 env)
   \/ FS.dirs (fs s) = {[ [SAVE_DIR] ]} ∪ FS.dirs (fs0 env))
  /\ (forall p, is_Some (FS.files (fs0 env) !! p) ->
                is_Some (FS.files (fs s) !! p))
  /\ (forall p, FS.files (fs s) !! p <> FS.files (fs0 env) !! p ->
        exists i j f,
          p = [SAVE_DIR; stamp_name (now env i)]
          /\ read_result env j = Some f
          /\ FS.files (fs s) !! p = Some (Image JPEG f)
          /\ In (Imwrite (path_of env i) (Some f) true) (trace s)).
Proof.
  intros s. pose proof (run_inv env n) as HI. fold s in HI.
  destruct (inv_fs _ _ HI) as [Hd Hf]. split; [exact Hd|]. split.
  - intros p Hp. destruct (Hf p) as [Heq|(path & f & _ & _ & Heq)];
      rewrite Heq; [done|by eexists].
  - intros p Hp. destruct (Hf p) as [?|(path & f & Hin & -> & Hfile)]; [done|].
    destruct (log_ok_imwrite_origin env _ _ _ _ (inv_log _ _ HI) Hin)
      as (i & j & f' & -> & [= <-] & _ & Hj).
    assert (Hc : Path.components (path_of env i)
                 = [SAVE_DIR; stamp_name (now env i)])
      by apply components_stamp.
    rewrite Hc in Hfile |- *. exists i, j, f.
    split; [done|]. split; [done|]. split; [done|].
    unfold trace. by rewrite <- in_rev.
Qed.

Section SameSecond.

Lemma stamp_name_of_stamp t1 t2 :
  stamp_of t1 = stamp_of t2 -> stamp_name t1 = stamp_name t2.
Proof.
  intros [= Hy Hmo Hd Hh Hmi Hs]. rewrite !stamp_name_layout.
  by rewrite Hy, Hmo, Hd, Hh, Hmi, Hs.
Qed.

Lemma put_file_twice p c1 c2 fs :
  FS.put_file p c2 (FS.put_file p c1 fs) = FS.put_file p c2 fs.
Proof. unfold FS.put_file. cbn. by rewrite insert_insert_eq. Qed.

End SameSecond.

(** X7.  The file name keeps the clock reading down to the second and
    drops the microseconds: two valid clock readings give the same name
    exactly when they agree on year, month, day, hour, minute and second,
    and the same holds for the paths built from the names. *)
Theorem name_has_second_resolution (t1 t2 : datetime) :
  valid t1 = true -> valid t2 = true ->
  (stamp_name t1 = stamp_name t2 <-> stamp_of t1 = stamp_of t2)
  /\ (Path.join SAVE_DIR (stamp_name t1) = Path.join SAVE_DIR (stamp_name t2)
      <-> stamp_of t1 = stamp_of t2).
Proof.
  intros Hv1 Hv2.
  assert (Hname : stamp_name t1 = stamp_name t2 -> stamp_of t1 = stamp_of t2).
  { intros Heq.
    pose proof (parse_stamp_strftime t1 ".jpg" Hv1) as H1.
    pose proof (parse_stamp_strftime t2 ".jpg" Hv2) as H2.
    fold (stamp_name t1) in H1. fold (stamp_name t2) in H2.
    rewrite Heq in H1. congruence. }
  split; (split; [|intros Hst; by rewrite (stamp_name_of_stamp _ _ Hst)]);
    [exact Hname|].
  intros Heq. rewrite !join_stamp in Heq.
  apply append_inv_head in Heq. apply Hname. congruence.
Qed.

Lemma name_has_second_resolution_witness :
  stamp_name (same_second_clock 0) = stamp_name (same_second_clock 1)
  /\ stamp_name (minute_clock 0) <> stamp_name (minute_clock 1).
Proof.
  split.
  - apply (name_has_second_resolution (same_second_clock 0)
             (same_second_clock 1)); reflexivity.
  - intros Heq.
    apply (name_has_second_resolution (minute_clock 0) (minute_clock 1))
      in Heq; [|reflexivity|reflexivity].
    vm_compute in Heq. discriminate Heq.
Defined.

(** X8.  Nothing keeps two saves apart: when two iterations in a row read
    the clock within the same second, line 32 writes the same path twice,
    the second frame replaces the first, and two messages of line 33 stand
    for a single file (or for none, when a directory sits at the path and
    neither write goes through). *)
Theorem same_second_overwrites (env : Env) (n : nat) (f1 f2 : Frame) :
  let s := run env n in
  let k := n_nows (trace s) in
  pc s = L24 ->
  read_result env (n_reads (trace s)) = Some f1 ->
  read_result env (S (n_reads (trace s))) = Some f2 ->
  (forall i, (n <= i < n + 14)%nat -> sigint env i = false) ->
  stamp_of (now env k) = stamp_of (now env (S k)) ->
  let s' := run env (n + 14) in
  let p := path_of env k in
  let w := negb (FS.is_dir (fs s) (Path.components p)) in
  trace s'
  = trace s ++ [Read (Some f1); Now (now env k); Imwrite p (Some f1) w;
                Printed (MSG_SAVED p); Sleep 60;
                Read (Some f2); Now (now env (S k)); Imwrite p (Some f2) w;
                Printed (MSG_SAVED p); Sleep 60]
  /\ (w = true ->
      fs s' = FS.put_file (Path.components p) (Image JPEG f2) (fs s)
      /\ FS.files (fs s') !! Path.components p = Some (Image JPEG f2))
  /\ (w = false -> fs s' = fs s).
Proof.
  intros s k Hpc Hr1 Hr2 Hsig Hst s' p w. subst w p k.
  unfold trace in Hr1, Hr2, Hst.
  rewrite n_reads_rev in Hr1, Hr2. rewrite n_nows_rev in Hst.
  replace (n_nows (trace s)) with (n_nows (log s))
    by (unfold trace; by rewrite n_nows_rev).
  apply stamp_name_of_stamp in Hst.
  pose proof (iteration_run env n f1 Hpc Hr1) as H1. cbv zeta in H1.
  fold s in H1, Hr1, Hr2, Hst |- *.
  set (t := now env (n_nows (log s))) in *.
  unfold path_of. fold t.
  pose proof (writes_run env n t) as Hwr. fold s in Hwr.
  rewrite components_stamp, <- Hwr. clear Hwr.
  set (pth := Path.join SAVE_DIR (stamp_name t)) in *.
  set (w := writes env pth) in *.
  assert (Hs1 : run env (n + 7)
    = mk_state L24 (stream_url s) true SAVE_DIR true (Some f1)
        (stamp_name t) pth
        (if w then FS.put_file [SAVE_DIR; stamp_name t] (Image JPEG f1) (fs s)
         else fs s)
        (Sleep 60 :: Printed (MSG_SAVED pth) :: Imwrite pth (Some f1) w
         :: Now t :: Read (Some f1) :: log s)).
  { apply H1. intros i Hi. apply Hsig. lia. }
  clear H1.
  assert (Hs2 : s' = run env (n + 7 + 7)) by (unfold s'; f_equal; lia).
  pose proof (iteration_run env (n + 7) f2) as H2. cbv zeta in H2.
  rewrite Hs1 in H2. cbn [pc log n_reads n_nows fs stream_url] in H2.
  specialize (H2 eq_refl Hr2).
  rewrite <- Hs2 in H2. rewrite H2; [|intros i Hi; apply Hsig; lia].
  fold t. rewrite <- Hst. fold pth. fold w.
  unfold trace. cbn [log fs].
  split; [|split].
  - cbn [rev]. by rewrite <- !app_assoc.
  - intros ->. rewrite put_file_twice. split; [done|].
    unfold FS.put_file. cbn [FS.files]. by rewrite lookup_insert_eq.
  - by intros ->.
Qed.

Lemma same_second_overwrites_witness :
  let s := run env_same_second 7 in
  let s' := run env_same_second 21 in
  save_paths (trace s')
  = ["captured_images/20261103_100015.jpg";
     "captured_images/20261103_100015.jpg"]%string
  /\ FS.files (fs s') !! ["captured_images"; "20261103_100015.jpg"]%string
     = Some (Image JPEG another_frame)
  /\ FS.files (fs s') = {[ ["captured_images"; "20261103_100015.jpg"]%string
                           := Image JPEG another_frame ]}.
Proof.
  destruct (same_second_overwrites env_same_second 7 a_frame another_frame)
    as (Htr & Hw & _).
  - vm_compute. reflexivity.
  - vm_compute. reflexivity.
  - vm_compute. reflexivity.
  - intros i _. reflexivity.
  - vm_compute. reflexivity.
  - destruct Hw as [Hfs Hfile]; [vm_compute; reflexivity|].
    change (7 + 14)%nat with 21%nat in Htr, Hfs, Hfile.
    cbv zeta. split; [|split].
    + rewrite Htr. vm_compute. reflexivity.
    + rewrite <- Hfile. vm_compute. reflexivity.
    + rewrite Hfs. vm_compute. reflexivity.
Defined.

Section Emission.
Context (env : Env).

Lemma exists_last_or_nil {A} (l : list A) :
  l = [] \/ exists l' x, l = l' ++ [x].
Proof.
  destruct l as [|a l]; [by left|]. right.
  destruct (@exists_last _ (a :: l)) as (l' & x & ->); [done|]. eauto.
Qed.


Lemma step_log i s :
  log (step env i s) = log s
  \/ exists e, log (step env i s) = e :: log s
               /\ emitted_by (pc s) e /\ forall o, pc s <> Halt o.
Proof.
  unfold step. destruct (pc s) eqn:Hpc; try (by left);
    (destruct (sigint env i);
     [ right; exists (Sigint (pc s)); unfold interrupt; rewrite Hpc;
       by repeat split
     | unfold exec; rewrite Hpc ]).
  all: repeat case_match; simp_state; try (by left);
    right; eexists; (split; [reflexivity|]); cbn [emitted_by];
    by (repeat split; eauto).
Qed.

Lemma step_trace i s :
  trace (step env i s) = trace s
  \/ exists e, trace (step env i s) = trace s ++ [e]
               /\ emitted_by (pc s) e /\ forall o, pc s <> Halt o.
Proof.
  unfold trace. destruct (step_log i s) as [->|(e & -> & He)]; [by left|].
  right. by exists e.
Qed.

(** Every event of a trace was added by one step, taken at the line the
    event comes from, when the trace was what precedes the event. *)
Lemma emitted_at n tr1 e tr2 :
  trace (run env n) = tr1 ++ e :: tr2 ->
  exists k, (k < n)%nat /\ trace (run env k) = tr1
            /\ emitted_by (pc (run env k)) e
            /\ (forall o, pc (run env k) <> Halt o)
            /\ trace (run env (S k)) = tr1 ++ [e].
Proof.
  revert tr2. induction n as [|n IH]; intros tr2 Htr.
  - by destruct tr1.
  - assert (Hless : forall tr2', trace (run env n) = tr1 ++ e :: tr2' ->
      exists k, (k < S n)%nat /\ trace (run env k) = tr1
                /\ emitted_by (pc (run env k)) e
                /\ (forall o, pc (run env k) <> Halt o)
                /\ trace (run env (S k)) = tr1 ++ [e]).
    { intros tr2' H. destruct (IH tr2' H) as (k & Hk & Hrest).
      exists k. split; [lia|done]. }
    rewrite run_S in Htr.
    destruct (step_trace n (run env n)) as [Heq|(e' & Heq & He' & Hrun)].
    + rewrite Heq in Htr. by eapply Hless.
    + rewrite Heq in Htr.
      destruct (exists_last_or_nil tr2) as [->|(tr2' & x & ->)].
      * apply (app_inj_tail (trace (run env n)) tr1) in Htr as [Ht ->].
        exists n. split; [lia|]. split; [done|]. split; [done|].
        split; [done|]. by rewrite run_S, Heq, Ht.
      * change (tr1 ++ e :: tr2' ++ [x]) with (tr1 ++ (e :: tr2') ++ [x])
          in Htr.
        rewrite app_assoc in Htr.
        apply app_inj_tail in Htr as [Ht _]. by eapply Hless.
Qed.

Lemma log_of_trace s tr : trace s = tr -> log s = rev tr.
Proof. unfold trace. intros <-. by rewrite rev_involutive. Qed.

Lemma opened_at_line n :
  closed_line (run env n) \/ stream_opens env = true.
Proof.
  destruct (stream_opens env) eqn:Ho; [by right|left].
  by destruct (closed_run env Ho n).
Qed.

(** The launch message is printed once, as the third event. *)
Lemma start_message_at n tr :
  trace (run env n) = tr ++ [Printed MSG_START] ->
  tr = [VideoCapture STREAM_URL true; Makedirs SAVE_DIR].
Proof.
  intros Htr. destruct (emitted_at n _ _ _ Htr) as (k & _ & Hk & He & _).
  pose proof (inv_pc _ _ (run_inv env k)) as Hat. unfold at_pc in Hat.
  cbn [emitted_by] in He.
  destruct (pc (run env k)); try done.
  - destruct Hat as (Hlog & _). rewrite <- Hk. unfold trace. by rewrite Hlog.
  - by destruct He as [p Hp].
Qed.

(** A sleep comes right after a read, a clock reading, a write and its
    message. *)
Lemma sleep_at n tr d :
  trace (run env n) = tr ++ [Sleep d] ->
  d = 60
  /\ exists tr0 f t p,
       tr = tr0 ++ [Read (Some f); Now t; Imwrite p (Some f) (writes env p);
                    Printed (MSG_SAVED p)].
Proof.
  intros Htr. split.
  - apply (log_ok_sleep env (log (run env n)) d (inv_log _ _ (run_inv env n))).
    rewrite (log_of_trace _ _ Htr), in_rev, rev_involutive.
    apply in_or_app. right. by left.
  - destruct (emitted_at n _ _ _ Htr) as (k & _ & Hk & He & _).
    pose proof (inv_pc _ _ (run_inv env k)) as Hat. unfold at_pc in Hat.
    cbn [emitted_by] in He. rewrite He in Hat.
    destruct Hat as (_ & t & f & l' & _ & _ & _ & Hlog & _).
    exists (rev l'), f, t, (filepath (run env k)).
    rewrite <- Hk. unfold trace. rewrite Hlog. cbn [rev].
    by rewrite <- !app_assoc.
Qed.

End Emission.

(** X9.  Reads are kept apart: the first read comes right after the launch
    (open, directory, launch message) and every later read right after a
    whole iteration, that is a read that delivered a frame, the clock
    reading, the write (which went through unless a directory sits at its
    path), its message and a sleep of 60 seconds.  The stream is open at
    every read, and the reads take the frames in order. *)
Theorem reads_are_spaced
    (env : Env) (n : nat) (tr1 tr2 : list Event) (r : option Frame) :
  trace (run env n) = tr1 ++ Read r :: tr2 ->
  stream_opens env = true
  /\ r = read_result env (n_reads tr1)
  /\ (tr1 = launch_events
       \/ exists tr0 f t p,
            tr1 = tr0 ++ [Read (Some f); Now t;
                          Imwrite p (Some f) (writes env p);
                          Printed (MSG_SAVED p); Sleep 60]).
Proof.
  intros Htr.
  destruct (emitted_at env n _ _ _ Htr) as (k & _ & Hk & He & _ & HSk).
  cbn [emitted_by] in He.
  pose proof (inv_pc _ _ (run_inv env k)) as Hat. unfold at_pc in Hat.
  rewrite He in Hat. destruct Hat as (_ & _ & e & l' & Hlog & He').
  split; [|split].
  - destruct (opened_at_line env k) as [Hc|Ho]; [|done].
    unfold closed_line in Hc. by rewrite He in Hc.
  - pose proof (inv_log _ _ (run_inv env (S k))) as Hok.
    rewrite (log_of_trace _ _ HSk), rev_app_distr in Hok.
    cbn [rev app] in Hok. destruct Hok as [Hr _].
    by rewrite n_reads_rev in Hr.
  - assert (Ht : trace (run env k) = rev l' ++ [e])
      by (unfold trace; by rewrite Hlog).
    rewrite <- Hk. destruct He' as [->| ->].
    + left. rewrite Ht. by rewrite (start_message_at env k _ Ht).
    + right. destruct (sleep_at env k _ _ Ht) as (_ & tr0 & f & t & p & Hrev).
      exists tr0, f, t, p. rewrite Ht, Hrev. by rewrite <- app_assoc.
Qed.

Lemma reads_are_spaced_witness :
  stream_opens env_three_frames = true
  /\ Some a_frame = read_result env_three_frames 1
  /\ (launch_events ++ iteration_events env_three_frames 0 = launch_events
       \/ exists tr0 f t p,
            launch_events ++ iteration_events env_three_frames 0
            = tr0 ++ [Read (Some f); Now t;
                      Imwrite p (Some f) (writes env_three_frames p);
                      Printed (MSG_SAVED p); Sleep 60]).
Proof.
  apply (reads_are_spaced env_three_frames 15
           (launch_events ++ iteration_events env_three_frames 0) []
           (Some a_frame)).
  vm_compute. reflexivity.
Defined.


Section Lifecycle.
Context (env : Env).

Lemma empty_log_line s :
  at_pc env s -> log s = [] -> pc s = L07 \/ pc s = L10.
Proof.
  unfold at_pc, loop_vars. intros Hat Hlog. rewrite Hlog in Hat.
  destruct (pc s) as [| | | | | | | | | | | | | | | | | | | | |[|c|[| |]]];
    auto;
    repeat match goal with
           | H : _ /\ _ |- _ => destruct H
           | H : exists _, _ |- _ => destruct H
           end; done.
Qed.

Lemma run_unreleased n :
  (forall o, pc (run env n) <> Halt o) -> pc (run env n) <> L42 ->
  n_release (trace (run env n)) = O.
Proof.
  intros Hrun H42. unfold trace. rewrite n_release_rev.
  by apply unreleased_outside_loop.
Qed.

(** The first event is the opening of the stream, unless a Ctrl+C came
    before it. *)
Lemma first_event n e tr :
  trace (run env n) = e :: tr ->
  e = VideoCapture STREAM_URL (stream_opens env) \/ exists l, e = Sigint l.
Proof.
  intros Htr.
  destruct (emitted_at env n [] e tr Htr) as (k & _ & Hk & He & _ & HSk).
  pose proof (inv_pc _ _ (run_inv env k)) as Hat.
  apply log_of_trace in Hk. cbn [rev] in Hk.
  destruct (empty_log_line _ Hat Hk) as [Hpc|Hpc]; rewrite Hpc in He.
  - destruct e; cbn [emitted_by] in He; try done. right. by eexists.
  - unfold at_pc in Hat. rewrite Hpc in Hat. destruct Hat as (_ & _ & Hurl).
    rewrite run_S in HSk. unfold step, interrupt, exec in HSk.
    rewrite Hpc in HSk. unfold trace in HSk.
    destruct (sigint env k); simp_state; rewrite Hk in HSk; cbn in HSk.
    + right. exists L10. congruence.
    + left. rewrite Hurl in HSk. congruence.
Qed.

Lemma opened_before n e tr :
  trace (run env n) = e :: tr ->
  (forall l tr', log (run env n) <> Sigint l :: tr') ->
  n_opens (trace (run env n)) = 1%nat.
Proof.
  intros Htr Hns.
  pose proof (inv_opens _ _ (run_inv env n)) as Hle.
  rewrite <- n_opens_rev in Hle. fold (trace (run env n)) in Hle.
  destruct (first_event n e tr Htr) as [->|[l ->]].
  - rewrite Htr in Hle |- *. cbn in Hle |- *. lia.
  - destruct (emitted_at env n [] (Sigint l) tr Htr)
      as (k & Hk & Hnil & He & Hrun & HSk).
    pose proof (inv_pc _ _ (run_inv env k)) as Hat.
    assert (Hesc : pc (run env (S k)) = Halt (Uncaught KeyboardInterrupt)).
    { apply log_of_trace in Hnil, HSk. cbn [rev app] in Hnil, HSk.
      destruct (empty_log_line _ Hat Hnil) as [Hpc|Hpc];
        rewrite run_S in HSk |- *; unfold step, interrupt, exec in HSk |- *;
        rewrite Hpc in HSk |- *; destruct (sigint env k); simp_state;
        try done; rewrite Hnil in HSk; done. }
    rewrite (run_halted env (S k) _ n Hesc) in Hns by lia.
    apply log_of_trace in HSk. cbn [rev app] in HSk. by destruct (Hns l []).
Qed.

End Lifecycle.

(** X10.  The capture handle is used in order.  The stream is opened once,
    as the very first event; a frame is read and the handle released only
    when the stream did open, after the opening and before any release; so
    the handle is never read after its release and never released twice.
    After the release only [destroyAllWindows] or a Ctrl+C follows. *)
Theorem handle_lifecycle
    (env : Env) (n : nat) (tr1 tr2 : list Event) (e : Event) :
  trace (run env n) = tr1 ++ e :: tr2 ->
  (tr1 = [] ->
   e = VideoCapture STREAM_URL (stream_opens env) \/ exists l, e = Sigint l)
  /\ (forall u o, e = VideoCapture u o -> tr1 = [])
  /\ (uses_handle e ->
      stream_opens env = true /\ n_opens tr1 = 1%nat /\ n_release tr1 = O)
  /\ (n_release tr1 <> O -> after_release e).
Proof.
  intros Htr.
  destruct (emitted_at env n _ _ _ Htr) as (k & _ & Hk & He & Hrun & HSk).
  pose proof (inv_pc _ _ (run_inv env k)) as Hat.
  split; [|split; [|split]].
  - intros ->. by apply (first_event env n e tr2).
  - intros u o ->. cbn [emitted_by] in He. unfold at_pc in Hat.
    rewrite He in Hat. destruct Hat as (Hlog & _).
    rewrite <- Hk. unfold trace. by rewrite Hlog.
  - intros Hu.
    assert (Hline : pc (run env k) = L24 \/ pc (run env k) = L41)
      by (destruct e; try done; cbn [emitted_by] in He; auto).
    assert (Hlog : exists e0 l', log (run env k) = e0 :: l'
                                 /\ forall l, e0 <> Sigint l).
    { unfold at_pc in Hat. destruct Hline as [Hl|Hl]; rewrite Hl in Hat.
      - destruct Hat as (_ & _ & e0 & l' & -> & [->| ->]); by eexists _, _.
      - destruct Hat as (_ & m & l' & -> & _); by eexists _, _. }
    destruct Hlog as (e0 & l' & Hlog & He0).
    split; [|split].
    + destruct (opened_at_line env k) as [Hc|Ho]; [|done].
      unfold closed_line in Hc. by destruct Hline as [Hl|Hl]; rewrite Hl in Hc.
    + rewrite <- Hk.
      destruct (trace (run env k)) as [|e1 tr] eqn:Ht.
      { apply log_of_trace in Ht. by rewrite Hlog in Ht. }
      rewrite <- Ht. apply (opened_before env k e1 tr Ht).
      intros l tr' Hl. rewrite Hlog in Hl. injection Hl as -> _.
      by destruct (He0 l).
    + rewrite <- Hk. apply run_unreleased; [done|].
      by destruct Hline as [Hl|Hl]; rewrite Hl.
  - intros Hrel. rewrite <- Hk in Hrel.
    assert (H42 : pc (run env k) = L42).
    { destruct (pc (run env k)) eqn:Hpc; try done;
        destruct Hrel; apply run_unreleased; by rewrite ?Hpc. }
    rewrite H42 in He. destruct e; cbn [emitted_by] in He; done.
Qed.

Lemma handle_lifecycle_witness :
  let tr1 := launch_events
             ++ flat_map (iteration_events env_three_frames) (seq 0 3)
             ++ [Read None; Printed MSG_READ_FAILED] in
  stream_opens env_three_frames = true
  /\ n_opens tr1 = 1%nat /\ n_release tr1 = O.
Proof.
  intros tr1.
  destruct (handle_lifecycle env_three_frames 34 tr1 [DestroyAllWindows]
              Release) as (_ & _ & H & _).
  - vm_compute. reflexivity.
  - apply H. exact I.
Defined.

(** X11.  The whole run when nobody interrupts it: with the stream open
    and the directory in place, if the first [k] reads deliver a frame and
    the next one does not, the script stops of itself after [13 + 7 k]
    steps, past its last line.  Its trace is the launch, the [k]
    iterations, the failed read with its message, the release and
    [destroyAllWindows]; [k] saves were made, and the disk is what the
    writes that went through left; the handle is released; and nothing
    happens afterwards. *)
Theorem run_until_stream_fails (env : Env) (k : nat) :
  stream_opens env = true ->
  (FS.is_dir (fs0 env) [SAVE_DIR] = true
   \/ FS.files (fs0 env) !! [SAVE_DIR] = None) ->
  (forall i, (i < 13 + 7 * k)%nat -> sigint env i = false) ->
  (forall i, (i < k)%nat -> is_Some (read_result env i)) ->
  read_result env k = None ->
  let s := run env (13 + 7 * k) in
  pc s = Halt Finished
  /\ exit_status Finished = 0
  /\ trace s
     = launch_events ++ flat_map (iteration_events env) (seq 0 k)
       ++ [Read None; Printed MSG_READ_FAILED; Release; DestroyAllWindows]
  /\ save_paths (trace s) = map (path_of env) (seq 0 k)
  /\ fs s = files_after env k
  /\ cap s = false
  /\ forall m, (13 + 7 * k <= m)%nat -> run env m = s.
Proof.
  intros Ho Hdir Hsig Hreads Hnone s.
  destruct (iterations_run env k Ho Hdir) as (Hpc & Htr & Hfs); auto.
  { intros i Hi. apply Hsig. lia. }
  set (s0 := run env (7 + 7 * k)) in *.
  assert (Hn : n_reads (log s0) = k).
  { rewrite <- n_reads_rev. fold (trace s0).
    by rewrite Htr, n_reads_app, n_reads_iterations. }
  assert (Hs : s = run env (7 + 7 * k + 6)) by (unfold s; f_equal; lia).
  destruct (read_failure_run env (7 + 7 * k) Hpc)
    as (Hpc' & Hcap & Hfs' & Hlog & _).
  { fold s0. by rewrite Hn. }
  { intros i Hi. apply Hsig. lia. }
  rewrite <- Hs in Hpc', Hcap, Hfs', Hlog. fold s0 in Hfs', Hlog.
  assert (Htr' : trace s
    = launch_events ++ flat_map (iteration_events env) (seq 0 k)
      ++ [Read None; Printed MSG_READ_FAILED; Release; DestroyAllWindows]).
  { unfold trace. rewrite Hlog. cbn [rev]. fold (trace s0).
    rewrite Htr. by rewrite <- !app_assoc. }
  split; [done|]. split; [done|]. split; [done|]. split.
  { rewrite Htr', !save_paths_app, save_paths_iterations. cbn.
    by rewrite app_nil_r. }
  split; [by rewrite Hfs'|]. split; [done|].
  intros m Hm. by apply (run_halted env (13 + 7 * k) Finished m).
Qed.

Lemma run_until_stream_fails_witness :
  let s := run env_three_frames 34 in
  pc s = Halt Finished
  /\ save_paths (trace s) = map (path_of env_three_frames) (seq 0 3)
  /\ fs s = files_after env_three_frames 3.
Proof.
  destruct (run_until_stream_fails env_three_frames 3)
    as (Hpc & _ & _ & Hp & Hfs & _).
  - reflexivity.
  - right. reflexivity.
  - intros i _. reflexivity.
  - intros i Hi. apply Nat.ltb_lt in Hi.
    unfold env_three_frames. cbn [read_result]. rewrite Hi. by eexists.
  - reflexivity.
  - split; [exact Hpc|]. split; [exact Hp | exact Hfs].
Defined.

(** X12.  The result of [cv2.imwrite] is not looked at.  From any state at
    line 32 whose frame is present and whose path is a stamp under
    [captured_images], a write that fails, for want of the directory or
    because a directory sits at the path, changes nothing on disk, raises
    nothing, and line 33 still prints the message for the file. *)
Theorem write_result_unchecked
    (env : Env) (s : State) (t : datetime) (f : Frame) :
  pc s = L32 ->
  frame s = Some f ->
  filepath s = Path.join SAVE_DIR (stamp_name t) ->
  FS.is_dir (fs s) [SAVE_DIR] = false
  \/ FS.is_dir (fs s) [SAVE_DIR; stamp_name t] = true ->
  let s1 := exec env s in
  let s2 := exec env s1 in
  pc s1 = L33 /\ fs s1 = fs s
  /\ log s1 = Imwrite (filepath s) (Some f) false :: log s
  /\ pc s2 = L36 /\ fs s2 = fs s
  /\ log s2 = Printed (MSG_SAVED (filepath s)) :: log s1
  /\ FS.files (fs s2) !! Path.components (filepath s)
     = FS.files (fs s) !! Path.components (filepath s).
Proof.
  intros Hpc Hfr Hpath Hdir s1 s2.
  assert (Hs1 : s1 = goto L33 (emit (Imwrite (filepath s) (Some f) false) s)).
  { unfold s1, exec. rewrite Hpc, Hfr, Hpath. unfold cv2.imwrite.
    rewrite extension_stamp, components_stamp. cbn [mbind option_bind].
    change (cv2.encoder_of "jpg") with (Some JPEG).
    cbn [rev app]. destruct Hdir as [-> | ->]; [done|].
    by destruct (FS.is_dir (fs s) [SAVE_DIR]). }
  assert (Hs2 : s2 = goto L36 (emit (Printed (MSG_SAVED (filepath s))) s1)).
  { unfold s2, exec. by rewrite Hs1. }
  rewrite Hs2, Hs1. by repeat split.
Qed.

Lemma write_result_unchecked_witness :
  let s := mk_state L32 STREAM_URL true SAVE_DIR true (Some a_frame)
             (stamp_name (minute_clock 0))
             (Path.join SAVE_DIR (stamp_name (minute_clock 0))) empty_fs [] in
  log (exec env_endless (exec env_endless s))
  = [Printed "Saved: captured_images/20261103_100015.jpg";
     Imwrite "captured_images/20261103_100015.jpg" (Some a_frame) false]
  /\ fs (exec env_endless (exec env_endless s)) = empty_fs.
Proof.
  intros s.
  destruct (write_result_unchecked env_endless s (minute_clock 0) a_frame)
    as (_ & _ & Hl1 & _ & Hfs & Hl2 & _);
    [reflexivity | reflexivity | reflexivity | left; reflexivity |].
  split; [|exact Hfs]. rewrite Hl2, Hl1. reflexivity.
Defined.

Section NameOrder.

Lemma ascii_compare_digit a b :
  0 <= a <= 9 -> 0 <= b <= 9 -> Ascii.compare (digit a) (digit b) = (a ?= b).
Proof.
  intros Ha Hb. unfold Ascii.compare. rewrite !N_of_digit by done.
  destruct (Z.compare_spec a b) as [->|Hl|Hg];
    [apply N.compare_refl|apply N.compare_lt_iff|apply N.compare_gt_iff]; lia.
Qed.

Lemma ascii_compare_refl c : Ascii.compare c c = Eq.
Proof. unfold Ascii.compare. apply N.compare_refl. Qed.

Lemma string_compare_prefix a x y :
  String.compare (a +:+ x) (a +:+ y) = String.compare x y.
Proof.
  induction a as [|c a IH]; [done|].
  rewrite !append_cons. cbn. by rewrite ascii_compare_refl.
Qed.

Lemma low_digits w n :
  n mod 10 ^ Z.of_nat (S w)
  = (n / 10 ^ Z.of_nat w) mod 10 * 10 ^ Z.of_nat w + n mod 10 ^ Z.of_nat w.
Proof.
  rewrite Nat2Z.inj_succ, Z.pow_succ_r by lia.
  assert (0 < 10 ^ Z.of_nat w) by (apply Z.pow_pos_nonneg; lia).
  rewrite (Z.mul_comm 10), Z.rem_mul_r by lia. lia.
Qed.

(** Strings of [w] digits compare as the numbers they write. *)
Lemma compare_pad w a b r1 r2 :
  String.compare (pad w a +:+ r1) (pad w b +:+ r2)
  = match a mod 10 ^ Z.of_nat w ?= b mod 10 ^ Z.of_nat w with
    | Eq => String.compare r1 r2
    | c => c
    end.
Proof.
  induction w as [|w IH].
  - cbn [pad]. by rewrite !append_nil, !Z.mod_1_r.
  - cbn [pad]. rewrite !append_cons. cbn [String.compare].
    rewrite ascii_compare_digit by apply mod10_range.
    rewrite IH, !low_digits.
    assert (Hp : 0 < 10 ^ Z.of_nat w) by (apply Z.pow_pos_nonneg; lia).
    pose proof (Z.mod_pos_bound a _ Hp) as Ha.
    pose proof (Z.mod_pos_bound b _ Hp) as Hb.
    set (p := 10 ^ Z.of_nat w) in *.
    set (da := (a / p) mod 10). set (db := (b / p) mod 10).
    set (ra := a mod p) in *. set (rb := b mod p) in *.
    assert (Hc : (da * p + ra ?= db * p + rb)
                 = match da ?= db with Eq => ra ?= rb | c => c end).
    { destruct (Z.compare_spec da db) as [->|Hlt|Hgt];
        [by rewrite Z.add_compare_mono_l
        |apply Z.compare_lt_iff; nia|apply Z.compare_gt_iff; nia]. }
    rewrite Hc. by destruct (da ?= db).
Qed.

Lemma compare_pad_small w a b r1 r2 :
  0 <= a < 10 ^ Z.of_nat w -> 0 <= b < 10 ^ Z.of_nat w ->
  String.compare (pad w a +:+ r1) (pad w b +:+ r2)
  = match a ?= b with
    | Eq => String.compare r1 r2
    | c => c
    end.
Proof.
  intros Ha Hb. rewrite compare_pad. by rewrite !Z.mod_small.
Qed.

(** The stamps in the order of the calendar. *)
Lemma days_before_next_year y :
  days_before_year (y + 1)
  = days_before_year y + 365 + (if is_leap y then 1 else 0).
Proof.
  unfold days_before_year, is_leap. cbv zeta.
  replace (y + 1 - 1) with (y - 1 + 1) by lia.
  destruct (Z.eqb_spec (y mod 4) 0), (Z.eqb_spec (y mod 100) 0),
    (Z.eqb_spec (y mod 400) 0); cbn [negb andb orb];
    Z.div_mod_to_equations; lia.
Qed.

Lemma days_before_year_mono y1 y2 :
  y1 <= y2 -> days_before_year y1 + 365 * (y2 - y1) <= days_before_year y2.
Proof.
  intros Hle. replace y2 with (y1 + Z.of_nat (Z.to_nat (y2 - y1))) by lia.
  induction (Z.to_nat (y2 - y1)) as [|k IH].
  - rewrite Z.add_0_r. lia.
  - rewrite Nat2Z.inj_succ, <- Z.add_1_r, Z.add_assoc, days_before_next_year.
    destruct (is_leap _); lia.
Qed.

Ltac month_table :=
  cbv [Z.to_nat Pos.to_nat Pos.iter_op Nat.add nth DAYS_IN_MONTH
       DAYS_BEFORE_MONTH Z.eqb Pos.eqb Z.ltb Z.compare Pos.compare
       Pos.compare_cont andb] in *.

Lemma month_cases m :
  1 <= m <= 12 ->
  m = 1 \/ m = 2 \/ m = 3 \/ m = 4 \/ m = 5 \/ m = 6
  \/ m = 7 \/ m = 8 \/ m = 9 \/ m = 10 \/ m = 11 \/ m = 12.
Proof. lia. Qed.

Lemma day_of_year_bounds y m d :
  1 <= m <= 12 -> 1 <= d <= days_in_month y m ->
  1 <= days_before_month y m + d <= 365 + (if is_leap y then 1 else 0).
Proof.
  intros Hm Hd. unfold days_before_month, days_in_month in *.
  destruct (is_leap y);
    destruct (month_cases m Hm) as [->|[->|[->|[->|[->|[->|[->|[->|[->|[->|[->| ->]]]]]]]]]]];
    month_table; lia.
Qed.

Lemma days_before_month_mono y m1 m2 d :
  1 <= m1 -> m1 < m2 -> m2 <= 12 -> d <= days_in_month y m1 ->
  days_before_month y m1 + d <= days_before_month y m2.
Proof.
  intros H1 Hlt H2 Hd. unfold days_before_month, days_in_month in *.
  assert (Hm1 : 1 <= m1 <= 12) by lia. assert (Hm2 : 1 <= m2 <= 12) by lia.
  destruct (is_leap y);
    destruct (month_cases m1 Hm1) as [->|[->|[->|[->|[->|[->|[->|[->|[->|[->|[->| ->]]]]]]]]]]];
    try lia;
    destruct (month_cases m2 Hm2) as [->|[->|[->|[->|[->|[->|[->|[->|[->|[->|[->| ->]]]]]]]]]]];
    try lia; month_table; lia.
Qed.

Lemma ymd2ord_lt t1 t2 :
  valid t1 = true -> valid t2 = true ->
  year t1 < year t2
  \/ year t1 = year t2
     /\ (month t1 < month t2 \/ month t1 = month t2 /\ day t1 < day t2) ->
  ymd2ord (year t1) (month t1) (day t1) < ymd2ord (year t2) (month t2) (day t2).
Proof.
  intros (Hy1 & Hm1 & Hd1 & _)%valid_bounds (Hy2 & Hm2 & Hd2 & _)%valid_bounds.
  unfold ymd2ord. intros [Hy|[Hy [Hm|[Hm Hd]]]].
  - pose proof (day_of_year_bounds _ _ _ Hm1 Hd1) as Hb1.
    pose proof (day_of_year_bounds _ _ _ Hm2 Hd2) as Hb2.
    pose proof (days_before_next_year (year t1)) as Hn.
    pose proof (days_before_year_mono (year t1 + 1) (year t2)) as Hmono.
    lia.
  - rewrite Hy in *.
    pose proof (days_before_month_mono (year t2) (month t1) (month t2)
                  (day t1)) as Hmono.
    lia.
  - rewrite Hy, Hm. lia.
Qed.

Lemma to_seconds_lt t1 t2 :
  valid t1 = true -> valid t2 = true ->
  year t1 < year t2
  \/ year t1 = year t2
     /\ (month t1 < month t2
         \/ month t1 = month t2
            /\ (day t1 < day t2
                \/ day t1 = day t2
                   /\ (hour t1 < hour t2
                       \/ hour t1 = hour t2
                          /\ (minute t1 < minute t2
                              \/ minute t1 = minute t2
                                 /\ second t1 < second t2)))) ->
  to_seconds t1 < to_seconds t2.
Proof.
  intros Hv1 Hv2 Hlex.
  pose proof (ymd2ord_lt t1 t2 Hv1 Hv2) as Hord.
  apply valid_bounds in Hv1 as (_ & _ & _ & Hh1 & Hmi1 & Hs1 & _).
  apply valid_bounds in Hv2 as (_ & _ & _ & Hh2 & Hmi2 & Hs2 & _).
  unfold to_seconds.
  destruct Hlex as [Hy|[Hy [Hm|[Hm [Hd|[Hd Hrest]]]]]];
    try (assert (ymd2ord (year t1) (month t1) (day t1)
                 < ymd2ord (year t2) (month t2) (day t2))
           by (apply Hord; lia); lia).
  rewrite Hy, Hm, Hd. lia.
Qed.

(** The seconds of two valid clock readings compare field by field. *)
Lemma to_seconds_compare t1 t2 :
  valid t1 = true -> valid t2 = true ->
  (to_seconds t1 ?= to_seconds t2)
  = match year t1 ?= year t2 with
    | Eq => match month t1 ?= month t2 with
            | Eq => match day t1 ?= day t2 with
                    | Eq => match hour t1 ?= hour t2 with
                            | Eq => match minute t1 ?= minute t2 with
                                    | Eq => second t1 ?= second t2
                                    | c => c
                                    end
                            | c => c
                            end
                    | c => c
                    end
            | c => c
            end
    | c => c
    end.
Proof.
  intros Hv1 Hv2.
  pose proof (to_seconds_lt t1 t2 Hv1 Hv2) as Hlt.
  pose proof (to_seconds_lt t2 t1 Hv2 Hv1) as Hgt.
  destruct (Z.compare_spec (year t1) (year t2)) as [Hy|?|?];
    [|apply Z.compare_lt_iff, Hlt; lia|apply Z.compare_gt_iff, Hgt; lia].
  destruct (Z.compare_spec (month t1) (month t2)) as [Hm|?|?];
    [|apply Z.compare_lt_iff, Hlt; lia|apply Z.compare_gt_iff, Hgt; lia].
  destruct (Z.compare_spec (day t1) (day t2)) as [Hd|?|?];
    [|apply Z.compare_lt_iff, Hlt; lia|apply Z.compare_gt_iff, Hgt; lia].
  destruct (Z.compare_spec (hour t1) (hour t2)) as [Hh|?|?];
    [|apply Z.compare_lt_iff, Hlt; lia|apply Z.compare_gt_iff, Hgt; lia].
  destruct (Z.compare_spec (minute t1) (minute t2)) as [Hmi|?|?];
    [|apply Z.compare_lt_iff, Hlt; lia|apply Z.compare_gt_iff, Hgt; lia].
  destruct (Z.compare_spec (second t1) (second t2)) as [Hs|?|?];
    [|apply Z.compare_lt_iff, Hlt; lia|apply Z.compare_gt_iff, Hgt; lia].
  apply Z.compare_eq_iff. unfold to_seconds. by rewrite Hy, Hm, Hd, Hh, Hmi, Hs.
Qed.

Lemma stamp_name_compare t1 t2 :
  valid t1 = true -> valid t2 = true ->
  String.compare (stamp_name t1) (stamp_name t2)
  = (to_seconds t1 ?= to_seconds t2).
Proof.
  intros Hv1 Hv2. rewrite (to_seconds_compare t1 t2 Hv1 Hv2).
  pose proof (days_in_month_le (year t1) (month t1)).
  pose proof (days_in_month_le (year t2) (month t2)).
  apply valid_bounds in Hv1 as (? & ? & ? & ? & ? & ? & _).
  apply valid_bounds in Hv2 as (? & ? & ? & ? & ? & ? & _).
  rewrite !stamp_name_layout.
  rewrite (compare_pad_small 4) by (cbn; lia).
  destruct (year t1 ?= year t2); try done.
  rewrite (compare_pad_small 2) by (cbn; lia).
  destruct (month t1 ?= month t2); try done.
  rewrite (compare_pad_small 2) by (cbn; lia).
  destruct (day t1 ?= day t2); try done.
  rewrite !append_cons, !append_nil. cbn [String.compare].
  rewrite ascii_compare_refl.
  rewrite (compare_pad_small 2) by (cbn; lia).
  destruct (hour t1 ?= hour t2); try done.
  rewrite (compare_pad_small 2) by (cbn; lia).
  destruct (minute t1 ?= minute t2); try done.
  rewrite (compare_pad_small 2) by (cbn; lia).
  by destruct (second t1 ?= second t2).
Qed.

End NameOrder.

(** X13.  The names sort as the clock readings do: for two valid clock
    readings, comparing the file names, or the paths, character by
    character gives the order of the readings in whole seconds.  A
    directory listing sorted by name is thus sorted by wall-clock time. *)
Theorem names_sort_by_time (t1 t2 : datetime) :
  valid t1 = true -> valid t2 = true ->
  String.compare (stamp_name t1) (stamp_name t2)
  = (to_seconds t1 ?= to_seconds t2)
  /\ String.compare (Path.join SAVE_DIR (stamp_name t1))
                    (Path.join SAVE_DIR (stamp_name t2))
     = (to_seconds t1 ?= to_seconds t2).
Proof.
  intros Hv1 Hv2. split; [by apply stamp_name_compare|].
  rewrite !join_stamp, string_compare_prefix. cbn [String.compare].
  rewrite ascii_compare_refl. by apply stamp_name_compare.
Qed.

Lemma names_sort_by_time_witness :
  String.compare (stamp_name (minute_clock 0)) (stamp_name (minute_clock 1))
  = Lt.
Proof.
  destruct (names_sort_by_time (minute_clock 0) (minute_clock 1)) as [-> _];
    reflexivity.
Defined.
